(** * Calculadora financeira: a shallow embedding of [calculadora.py]

    The module computes compound interest, the fixed instalment of the Price
    system, the amortisation table, the return on investment and the
    accumulated inflation.  Every number it handles is a Python [float], that
    is an IEEE 754 binary64 value, so the embedding works on Rocq's primitive
    [float]s, whose [+], [-], [*] and [/] are the same correctly rounded
    operations.  Python's own layer on top of them (the exceptions raised by
    [/] and [**], the built-in [round]) is modelled in [Module Py]; the
    functions of the repository follow, in the order of the source.

    The arguments the source annotates as [float] are floats here, and those
    it annotates as [int] are integers: an [int] passed where a float is
    expected has, below [2^53], the value of its float. *)

From Stdlib Require Import String ZArith List Bool Lia Floats.
From Stdlib Require Uint63.
Import ListNotations.

Set Warnings "-inexact-float".
Local Open Scope Z_scope.

(** ** Exceptions *)

(** The three exceptions the module can raise: [ValueError], with its
    message, by its own [raise] statements; the other two by Python's
    arithmetic. *)
Inductive exn : Set :=
| ValueError (mensagem : string)
| ZeroDivisionError
| OverflowError.

Inductive result (A : Type) : Type :=
| Ok (a : A)
| Raise (e : exn).

Arguments Ok {A} a.
Arguments Raise {A} e.

Definition bind {A B : Type} (m : result A) (k : A -> result B) : result B :=
  match m with
  | Ok a => k a
  | Raise e => Raise e
  end.

Notation "x <- m ;; k" := (bind m (fun x => k))
  (at level 61, m at next level, right associativity).

Definition returns {A : Type} (m : result A) : Prop := exists a, m = Ok a.

(** [for x in l: s = body(s, x)], stopping at the first exception. *)
Fixpoint for_each {S X : Type} (body : S -> X -> result S) (l : list X) (s : S)
  : result S :=
  match l with
  | [] => Ok s
  | x :: l' => s' <- body s x ;; for_each body l' s'
  end.

(** [range(a, b)]. *)
Definition range (a b : Z) : list Z :=
  map (fun k => a + Z.of_nat k) (seq 0 (Z.to_nat (b - a))).

(** ** The C library's [pow]

    CPython evaluates [x ** y] on floats with the platform's [pow] once the
    special cases are out of the way.  The C standard fixes [pow] only up to
    a small rounding error, so the library is an interface of the
    embedding. *)
Class Libm : Type := { c_pow : float -> float -> float }.

(** ** Exact values of floats *)

Module Exact.

(** The integer a float stands for, when it stands for one. *)
Definition to_Z (x : float) : option Z :=
  match Prim2SF x with
  | S754_zero _ => Some 0
  | S754_finite s m e =>
      match e with
      | Z0 => Some (cond_Zopp s (Zpos m))
      | Zpos _ => Some (cond_Zopp s (Zpos m * 2 ^ e))
      | Zneg _ =>
          if Zpos m mod 2 ^ (- e) =? 0
          then Some (cond_Zopp s (Zpos m / 2 ^ (- e)))
          else None
      end
  | _ => None
  end.

(** [m * 2^e] with the trailing zero bits of [m] moved to the exponent. *)
Fixpoint odd_part (m : positive) (e : Z) : positive * Z :=
  match m with
  | xO m' => odd_part m' (e + 1)
  | _ => (m, e)
  end.

(** The nearest integer to [n / d], ties to the even one
    ([0 <= n], [0 < d]). *)
Definition round_half_even (n d : Z) : Z :=
  let q := n / d in
  match 2 * (n mod d) ?= d with
  | Lt => q
  | Gt => q + 1
  | Eq => if Z.even q then q else q + 1
  end.

(** The nearest integer to [n / d], ties away from zero: the rule
    [decimal.ROUND_HALF_UP] names. *)
Definition round_half_up (n d : Z) : Z :=
  let q := n / d in
  if d <=? 2 * (n mod d) then q + 1 else q.

(** The correctly rounded power [x ^ n] of a finite positive [x]: the
    reference the platform's [pow] is compared with. *)
Definition pow_sf (x : spec_float) (n : Z) : spec_float :=
  match x with
  | S754_finite false m e =>
      let '(m', e') := odd_part m e in
      match n with
      | Z0 => S754_finite false 1 0
      | Zpos p => binary_normalize prec emax (Zpos (m' ^ p)) (e' * n) false
      | Zneg p =>
          SFdiv prec emax (S754_finite false 1 0)
            (S754_finite false (m' ^ p) (e' * Zpos p))
      end
  | _ => S754_nan
  end.

Definition pow (x y : float) : float :=
  match to_Z y with
  | Some n => SF2Prim (pow_sf (Prim2SF x) n)
  | None => nan
  end.

End Exact.

(** A library whose [pow] is the correctly rounded power. *)
Definition exact_libm : Libm := {| c_pow := Exact.pow |}.

(** [w] is [v] or one of its two neighbours. *)
Definition within_ulp (v w : float) : Prop :=
  w = v \/ w = next_up v \/ w = next_down v.

(** A library is faithful when its [pow] is never further than one unit in
    the last place from the correctly rounded power, on the arguments Python
    passes to it: a finite positive base and an integer exponent. *)
Definition faithful (L : Libm) : Prop :=
  forall x y,
    (0 <? x)%float = true -> is_infinity x = false ->
    Exact.to_Z y <> None ->
    within_ulp (Exact.pow x y) (c_pow x y).

(** ** Python's arithmetic on floats *)

Module Py.

Local Open Scope float_scope.

(** [float(n)] for an [int]: the nearest float, [OverflowError] when
    there is none. *)
Definition float_of_int (n : Z) : result float :=
  let f := SF2Prim (binary_normalize prec emax n 0%Z false) in
  if is_infinity f then Raise OverflowError else Ok f.

(** [x / y]. *)
Definition truediv (x y : float) : result float :=
  if y =? 0 then Raise ZeroDivisionError else Ok (x / y).

(** [max(0, x)]: [x] when [x > 0], else the first argument, the integer
    zero, which is kept here as the float of the same value. *)
Definition max0 (x : float) : float :=
  if 0 <? x then x else 0.

(** [DOUBLE_IS_ODD_INTEGER]. *)
Definition is_odd_integer (x : float) : bool :=
  match Exact.to_Z x with
  | Some n => Z.odd n
  | None => false
  end.

(** [x ** n] for a float [x] and an [int] [n], after [float_pow] of
    CPython's [floatobject.c]: [n] is first converted to a float [iw]; the
    cases [pow] must not be trusted with are decided by hand, the rest goes
    to the C library, whose infinite result is an [OverflowError].  Where
    [float_pow] compares [iw] with zero the comparison is made on [n], whose
    sign [float(n)] keeps.  The branches of [float_pow] for an exponent that
    is infinite, not a number or not an integer cannot be reached from an
    [int]. *)
Definition pow {L : Libm} (iv : float) (n : Z) : result float :=
  iw <- float_of_int n ;;
  if (n =? 0)%Z then Ok 1
  else if is_nan iv then Ok iv
  else if is_infinity iv then
    let iw_is_odd := is_odd_integer iw in
    if (0 <? n)%Z
    then Ok (if iw_is_odd then iv else abs iv)
    else Ok (if iw_is_odd then (if iv <? 0 then neg_zero else 0) else 0)
  else if iv =? 0 then
    if (n <? 0)%Z then Raise ZeroDivisionError
    else Ok (if is_odd_integer iw then iv else 0)
  else
    let negate_result := (iv <? 0) && is_odd_integer iw in
    let iv := if iv <? 0 then - iv else iv in
    if iv =? 1 then Ok (if negate_result then -1 else 1)
    else
      let ix := c_pow iv iw in
      if is_infinity ix then Raise OverflowError
      else Ok (if negate_result then - ix else ix).

(** [double_round] of [floatobject.c]: the float is printed with [ndigits]
    decimals, correctly rounded with ties to even ([_Py_dg_dtoa], mode 3),
    and the decimal is read back as the nearest float ([_Py_dg_strtod]);
    a decimal too large for a float is an [OverflowError]. *)
Definition double_round (x : float) (ndigits : Z) : result float :=
  match Prim2SF x with
  | S754_finite s m e =>
      let num := (Zpos m * 2 ^ Z.max e 0 * 10 ^ Z.max ndigits 0)%Z in
      let den := (2 ^ Z.max (- e) 0 * 10 ^ Z.max (- ndigits) 0)%Z in
      let rounded :=
        SF2Prim
          match Exact.round_half_even num den with
          | Zpos k =>
              if (0 <=? ndigits)%Z
              then SFdiv prec emax (S754_finite s k 0)
                     (S754_finite false (Z.to_pos (10 ^ ndigits)) 0)
              else binary_normalize prec emax
                     (cond_Zopp s (Zpos k * 10 ^ (- ndigits))) 0 false
          | _ => S754_zero s
          end in
      if is_infinity rounded then Raise OverflowError else Ok rounded
  | _ => Ok x
  end.

(** [round(x, ndigits)] on a float ([float___round___impl]). *)
Definition round (x : float) (ndigits : Z) : result float :=
  if is_nan x || is_infinity x then Ok x
  else if (323 <? ndigits)%Z then Ok x
  else if (ndigits <? -308)%Z then Ok (0 * x)
  else double_round x ndigits.

End Py.

(** ** The calculator *)

Local Open Scope float_scope.

(** [class CalculadoraFinanceira]: its one attribute is the number of
    decimals of every result. *)
Record CalculadoraFinanceira : Set := { precisao : Z }.

(** [__init__] with its default argument. *)
Definition init_padrao : CalculadoraFinanceira := {| precisao := 2 |}.

(** A row of the amortisation table: the dictionary the source appends,
    with its five keys. *)
Record linha : Set := {
  parcela : Z;
  valor_parcela : float;
  juros : float;
  amortizacao : float;
  saldo_devedor : float
}.

Section Calculadora.

Context {L : Libm}.
Variable self : CalculadoraFinanceira.

Definition juros_compostos (principal taxa : float) (periodos : Z)
  : result float :=
  potencia <- Py.pow (1 + taxa) periodos ;;
  let montante := principal * potencia in
  Py.round montante (precisao self).

Definition calcular_parcela (valor_total taxa_mensal : float)
  (num_parcelas : Z) : result float :=
  if taxa_mensal <=? 0
  then Raise (ValueError "Taxa mensal deve ser maior que zero")
  else if (num_parcelas <=? 0)%Z
  then Raise (ValueError "Número de parcelas deve ser maior que zero")
  else
    potencia <- Py.pow (1 + taxa_mensal) num_parcelas ;;
    potencia' <- Py.pow (1 + taxa_mensal) num_parcelas ;;
    fator <- Py.truediv (taxa_mensal * potencia) (potencia' - 1) ;;
    let parcela := valor_total * fator in
    Py.round parcela (precisao self).

(** The body of the [for] loop: the state is the running balance and the
    table built so far. *)
Definition passo (taxa_mensal parcela_valor : float)
  (estado : float * list linha) (i : Z) : result (float * list linha) :=
  let '(saldo, tabela) := estado in
  let juros := saldo * taxa_mensal in
  let amortizacao := parcela_valor - juros in
  let saldo := saldo - amortizacao in
  vp <- Py.round parcela_valor (precisao self) ;;
  j <- Py.round juros (precisao self) ;;
  a <- Py.round amortizacao (precisao self) ;;
  sd <- Py.round (Py.max0 saldo) (precisao self) ;;
  Ok (saldo,
      tabela ++ [ {| parcela := i; valor_parcela := vp; juros := j;
                     amortizacao := a; saldo_devedor := sd |} ]).

Definition tabela_amortizacao (valor_total taxa_mensal : float)
  (num_parcelas : Z) : result (list linha) :=
  parcela_valor <- calcular_parcela valor_total taxa_mensal num_parcelas ;;
  let saldo := valor_total in
  let tabela := [] in
  estado <- for_each (passo taxa_mensal parcela_valor)
              (range 1 (num_parcelas + 1)) (saldo, tabela) ;;
  Ok (snd estado).

Definition roi (investimento_inicial retorno_final : float) : result float :=
  quociente <- Py.truediv (retorno_final - investimento_inicial)
                 investimento_inicial ;;
  let roi_valor := quociente * 100 in
  Py.round roi_valor (precisao self).

End Calculadora.

(** The loop of [calcular_inflacao_acumulada], from the accumulator it has
    reached. *)
Fixpoint acumular (acumulado : float) (taxas_mensais : list float)
  : result float :=
  match taxas_mensais with
  | [] => Ok acumulado
  | taxa :: resto =>
      fracao <- Py.truediv taxa 100 ;;
      acumular (acumulado * (1 + fracao)) resto
  end.

Definition calcular_inflacao_acumulada (taxas_mensais : list float)
  : result float :=
  acumulado <- acumular 1 taxas_mensais ;;
  Py.round ((acumulado - 1) * 100) 2.

(** ** The schedule, period by period

    The amortisation loop restated as a recurrence, to compare the loop
    with. *)

(** [map] for a function that can raise: the first exception wins. *)
Fixpoint map_result {X Y : Type} (f : X -> result Y) (l : list X)
  : result (list Y) :=
  match l with
  | [] => Ok []
  | x :: l' => y <- f x ;; ys <- map_result f l' ;; Ok (y :: ys)
  end.

(** The unrounded balance after [i] periods: the financed amount before the
    first one, then the previous balance less the principal paid, which is
    the instalment less the interest on the previous balance. *)
Fixpoint saldo_apos (valor_total taxa_mensal parcela_valor : float) (i : nat)
  : float :=
  match i with
  | O => valor_total
  | S k =>
      let anterior := saldo_apos valor_total taxa_mensal parcela_valor k in
      anterior - (parcela_valor - anterior * taxa_mensal)
  end.

(** The row of period [i] (from 1): the four amounts, each rounded on its
    own, from the unrounded balances before and after the period. *)
Definition linha_de (self : CalculadoraFinanceira)
  (valor_total taxa_mensal parcela_valor : float) (i : nat) : result linha :=
  let anterior := saldo_apos valor_total taxa_mensal parcela_valor (pred i) in
  let seguinte := saldo_apos valor_total taxa_mensal parcela_valor i in
  vp <- Py.round parcela_valor (precisao self) ;;
  j <- Py.round (anterior * taxa_mensal) (precisao self) ;;
  a <- Py.round (parcela_valor - anterior * taxa_mensal) (precisao self) ;;
  sd <- Py.round (Py.max0 seguinte) (precisao self) ;;
  Ok {| parcela := Z.of_nat i; valor_parcela := vp; juros := j;
        amortizacao := a; saldo_devedor := sd |}.

(** ** Closing the schedule

    What a schedule that repays the debt satisfies, on the exact values of
    the floats of a table: the principal paid adds up to the financed amount
    within [num_parcelas * 10^-precisao], and the last balance is zero. *)

(** A finite float in units of [2^-1074], of which every float is a whole
    number. *)
Definition unidades (x : float) : Z :=
  match Prim2SF x with
  | S754_finite s m e => cond_Zopp s (Zpos m * 2 ^ (e + 1074))%Z
  | _ => 0%Z
  end.

Definition soma_amortizacao (tabela : list linha) : Z :=
  fold_right (fun fila soma => (unidades (amortizacao fila) + soma)%Z) 0%Z
    tabela.

Definition amortiza_o_total (self : CalculadoraFinanceira)
  (valor_total : float) (tabela : list linha) : bool :=
  (Z.abs (soma_amortizacao tabela - unidades valor_total)
     * 10 ^ Z.max (precisao self) 0
   <=? Z.of_nat (length tabela) * 2 ^ 1074 * 10 ^ Z.max (- precisao self) 0)%Z.

Definition saldo_final_zero (tabela : list linha) : bool :=
  match rev tabela with
  | ultima :: _ => (saldo_devedor ultima =? 0)%float
  | [] => false
  end.

(** ** Signs

    A float of the specification that is not below zero: a zero, a positive
    number, plus infinity, or not a number. *)
Definition SF_nonneg (x : spec_float) : bool :=
  match x with
  | S754_finite true _ _ | S754_infinity true => false
  | _ => true
  end.

(** * Properties *)

(** ** What the arithmetic can raise *)

Lemma bind_Ok {A B : Type} (m : result A) (k : A -> result B) (b : B) :
  (x <- m ;; k x) = Ok b -> exists a, m = Ok a /\ k a = Ok b.
Proof.
  destruct m as [a | e]; simpl; intros H; [eauto | discriminate].
Qed.

Lemma bind_Raise {A B : Type} (m : result A) (k : A -> result B) (e : exn) :
  (x <- m ;; k x) = Raise e ->
  m = Raise e \/ exists a, m = Ok a /\ k a = Raise e.
Proof.
  destruct m as [a | e']; simpl; intros H;
    [right; eauto | left; inversion H; reflexivity].
Qed.

Lemma float_of_int_raises (n : Z) (e : exn) :
  Py.float_of_int n = Raise e -> e = OverflowError.
Proof.
  unfold Py.float_of_int.
  destruct (is_infinity _); intros H; inversion H; reflexivity.
Qed.

Lemma truediv_raises (x y : float) (e : exn) :
  Py.truediv x y = Raise e -> e = ZeroDivisionError /\ (y =? 0) = true.
Proof.
  unfold Py.truediv.
  destruct (y =? 0); intros H; inversion H; split; reflexivity.
Qed.

Lemma truediv_Ok (x y : float) :
  (y =? 0) = false -> Py.truediv x y = Ok (x / y).
Proof.
  unfold Py.truediv; intros ->; reflexivity.
Qed.

Lemma double_round_raises (x : float) (ndigits : Z) (e : exn) :
  Py.double_round x ndigits = Raise e -> e = OverflowError.
Proof.
  unfold Py.double_round.
  destruct (Prim2SF x); try discriminate.
  destruct (is_infinity _); intros H; inversion H; reflexivity.
Qed.

Lemma round_raises (x : float) (ndigits : Z) (e : exn) :
  Py.round x ndigits = Raise e -> e = OverflowError.
Proof.
  unfold Py.round.
  destruct (is_nan x || is_infinity x); [discriminate |].
  destruct (323 <? ndigits)%Z; [discriminate |].
  destruct (ndigits <? -308)%Z; [discriminate |].
  apply double_round_raises.
Qed.

Lemma pow_raises {L : Libm} (iv : float) (n : Z) (e : exn) :
  Py.pow iv n = Raise e -> e = ZeroDivisionError \/ e = OverflowError.
Proof.
  unfold Py.pow; intros H.
  apply bind_Raise in H as [H | (iw & _ & H)].
  - right; exact (float_of_int_raises _ _ H).
  - cbv beta in H.
    destruct (n =? 0)%Z; [discriminate |].
    destruct (is_nan iv); [discriminate |].
    destruct (is_infinity iv).
    { destruct (0 <? n)%Z; discriminate. }
    destruct (iv =? 0).
    { destruct (n <? 0)%Z; [inversion H; auto | discriminate]. }
    destruct (_ =? 1); [discriminate |].
    destruct (is_infinity _); [inversion H; auto | discriminate].
Qed.

(** The only way for [x ** n] to fail with a division by zero: a zero base
    and a negative exponent. *)
Lemma pow_ZeroDivisionError {L : Libm} (iv : float) (n : Z) :
  Py.pow iv n = Raise ZeroDivisionError <->
  returns (Py.float_of_int n) /\ (n < 0)%Z /\
  is_nan iv = false /\ is_infinity iv = false /\ (iv =? 0) = true.
Proof.
  unfold Py.pow; split.
  - intros H.
    apply bind_Raise in H as [H | (iw & Hiw & H)].
    + apply float_of_int_raises in H; discriminate.
    + split; [exists iw; exact Hiw |]; cbv beta in H.
      destruct (n =? 0)%Z; [discriminate |].
      destruct (is_nan iv); [discriminate |].
      destruct (is_infinity iv).
      { destruct (0 <? n)%Z; discriminate. }
      destruct (iv =? 0).
      { destruct (Z.ltb_spec n 0); [auto | discriminate]. }
      destruct (_ =? 1); [discriminate |].
      destruct (is_infinity _); discriminate.
  - intros ([iw ->] & Hneg & Hn & Hi & Hz); unfold bind.
    destruct (Z.eqb_spec n 0); [lia |].
    rewrite Hn, Hi, Hz.
    destruct (Z.ltb_spec n 0); [reflexivity | lia].
Qed.

(** ** What the functions of the module can raise *)

Section Excecoes.

Context {L : Libm}.
Variable self : CalculadoraFinanceira.

Lemma juros_compostos_raises (principal taxa : float) (periodos : Z) (e : exn) :
  juros_compostos self principal taxa periodos = Raise e ->
  e = ZeroDivisionError \/ e = OverflowError.
Proof.
  unfold juros_compostos; intros H.
  apply bind_Raise in H as [H | (w & _ & H)].
  - exact (pow_raises _ _ _ H).
  - right; exact (round_raises _ _ _ H).
Qed.

Lemma calcular_parcela_valida (valor_total taxa_mensal : float)
  (num_parcelas : Z) :
  (taxa_mensal <=? 0) = false -> (0 < num_parcelas)%Z ->
  calcular_parcela self valor_total taxa_mensal num_parcelas =
  (potencia <- Py.pow (1 + taxa_mensal) num_parcelas ;;
   fator <- Py.truediv (taxa_mensal * potencia) (potencia - 1) ;;
   Py.round (valor_total * fator) (precisao self)).
Proof.
  intros Ht Hn; unfold calcular_parcela.
  rewrite Ht.
  destruct (Z.leb_spec num_parcelas 0) as [Hle | _]; [lia |].
  destruct (Py.pow (1 + taxa_mensal) num_parcelas); reflexivity.
Qed.

Lemma calcular_parcela_raises (valor_total taxa_mensal : float)
  (num_parcelas : Z) (e : exn) :
  (taxa_mensal <=? 0) = false -> (0 < num_parcelas)%Z ->
  calcular_parcela self valor_total taxa_mensal num_parcelas = Raise e ->
  e = ZeroDivisionError \/ e = OverflowError.
Proof.
  intros Ht Hn; rewrite calcular_parcela_valida by assumption; intros H.
  apply bind_Raise in H as [H | (w & _ & H)].
  - exact (pow_raises _ _ _ H).
  - apply bind_Raise in H as [H | (f & _ & H)].
    + left; exact (proj1 (truediv_raises _ _ _ H)).
    + right; exact (round_raises _ _ _ H).
Qed.

Lemma passo_raises (taxa_mensal parcela_valor : float)
  (estado : float * list linha) (i : Z) (e : exn) :
  passo self taxa_mensal parcela_valor estado i = Raise e ->
  e = OverflowError.
Proof.
  destruct estado as [saldo tabela]; unfold passo; intros H.
  repeat (apply bind_Raise in H as [H | (? & _ & H)];
          [exact (round_raises _ _ _ H) |]).
  discriminate.
Qed.

Lemma laco_raises (taxa_mensal parcela_valor : float) (l : list Z)
  (estado : float * list linha) (e : exn) :
  for_each (passo self taxa_mensal parcela_valor) l estado = Raise e ->
  e = OverflowError.
Proof.
  revert estado; induction l as [| i l IH]; intros estado H.
  - discriminate.
  - cbn [for_each] in H.
    apply bind_Raise in H as [H | (estado' & _ & H)].
    + exact (passo_raises _ _ _ _ _ H).
    + exact (IH _ H).
Qed.

Lemma roi_raises (investimento_inicial retorno_final : float) (e : exn) :
  roi self investimento_inicial retorno_final = Raise e ->
  (e = ZeroDivisionError /\ (investimento_inicial =? 0) = true) \/
  (e = OverflowError /\ (investimento_inicial =? 0) = false).
Proof.
  unfold roi, Py.truediv.
  destruct (investimento_inicial =? 0); cbn [bind]; intros H.
  - left; inversion H; split; reflexivity.
  - right; split; [exact (round_raises _ _ _ H) | reflexivity].
Qed.

End Excecoes.

Lemma cem_nao_zero : (100 =? 0) = false.
Proof. reflexivity. Qed.

(** The loop of [calcular_inflacao_acumulada] never raises: it divides by
    the constant 100. *)
Lemma acumular_fold (taxas_mensais : list float) (acumulado : float) :
  acumular acumulado taxas_mensais =
  Ok (fold_left (fun acc taxa => acc * (1 + taxa / 100)) taxas_mensais
        acumulado).
Proof.
  revert acumulado; induction taxas_mensais as [| taxa resto IH];
    intros acumulado.
  - reflexivity.
  - cbn [acumular fold_left].
    rewrite (truediv_Ok taxa 100 cem_nao_zero); cbn [bind].
    apply IH.
Qed.

Lemma calcular_inflacao_acumulada_raises (taxas_mensais : list float) (e : exn) :
  calcular_inflacao_acumulada taxas_mensais = Raise e -> e = OverflowError.
Proof.
  unfold calcular_inflacao_acumulada.
  rewrite acumular_fold; cbn [bind].
  apply round_raises.
Qed.

(** ** C1: the validation of [calcular_parcela] *)

(** C1. [calcular_parcela] raises [ValueError] exactly when
    [taxa_mensal <= 0] or [num_parcelas <= 0], and then returns nothing;
    [tabela_amortizacao] inherits exactly these two checks, and no other
    function of the module ever raises [ValueError]. *)
Theorem C1_validation {L : Libm} (self : CalculadoraFinanceira)
  (valor_total taxa_mensal : float) (num_parcelas : Z) :
  ((exists mensagem,
       calcular_parcela self valor_total taxa_mensal num_parcelas
       = Raise (ValueError mensagem))
   <-> (taxa_mensal <=? 0) = true \/ (num_parcelas <= 0)%Z)
  /\ ((exists mensagem,
          calcular_parcela self valor_total taxa_mensal num_parcelas
          = Raise (ValueError mensagem))
      -> ~ returns (calcular_parcela self valor_total taxa_mensal
                      num_parcelas))
  /\ ((exists mensagem,
          tabela_amortizacao self valor_total taxa_mensal num_parcelas
          = Raise (ValueError mensagem))
      <-> (taxa_mensal <=? 0) = true \/ (num_parcelas <= 0)%Z)
  /\ (forall principal taxa periodos mensagem,
        juros_compostos self principal taxa periodos
        <> Raise (ValueError mensagem))
  /\ (forall investimento_inicial retorno_final mensagem,
        roi self investimento_inicial retorno_final
        <> Raise (ValueError mensagem))
  /\ (forall taxas_mensais mensagem,
        calcular_inflacao_acumulada taxas_mensais
        <> Raise (ValueError mensagem)).
Proof.
  assert (Hparcela :
    (exists mensagem,
        calcular_parcela self valor_total taxa_mensal num_parcelas
        = Raise (ValueError mensagem))
    <-> (taxa_mensal <=? 0) = true \/ (num_parcelas <= 0)%Z).
  { split.
    - intros [mensagem H].
      destruct (taxa_mensal <=? 0) eqn:Ht; [left; reflexivity |].
      destruct (Z.le_gt_cases num_parcelas 0) as [Hn | Hn];
        [right; exact Hn |].
      destruct (calcular_parcela_raises self _ _ _ _ Ht Hn H); discriminate.
    - unfold calcular_parcela; intros [-> | Hn]; [eexists; reflexivity |].
      destruct (taxa_mensal <=? 0); [eexists; reflexivity |].
      destruct (Z.leb_spec num_parcelas 0); [eexists; reflexivity | lia]. }
  repeat split.
  - apply Hparcela.
  - apply Hparcela.
  - intros [mensagem H] [v Hv]; rewrite H in Hv; discriminate.
  - intros [mensagem H]; apply Hparcela.
    unfold tabela_amortizacao in H.
    apply bind_Raise in H as [H | (v & _ & H)];
      [exists mensagem; exact H |].
    apply bind_Raise in H as [H | (st & _ & H)]; [| discriminate].
    apply laco_raises in H; discriminate.
  - intros H; apply Hparcela in H as [mensagem H].
    exists mensagem; unfold tabela_amortizacao; rewrite H; reflexivity.
  - intros principal taxa periodos mensagem H.
    destruct (juros_compostos_raises self _ _ _ _ H); discriminate.
  - intros i f mensagem H.
    destruct (roi_raises self _ _ _ H) as [[? _] | [? _]]; discriminate.
  - intros l mensagem H.
    apply calcular_inflacao_acumulada_raises in H; discriminate.
Qed.


(** ** The amortisation loop *)

Lemma map_result_Ok {X Y : Type} (f : X -> result Y) (l : list X)
  (ys : list Y) :
  map_result f l = Ok ys -> Forall2 (fun x y => f x = Ok y) l ys.
Proof.
  revert ys; induction l as [| x l IH]; intros ys H.
  - inversion H; constructor.
  - cbn [map_result] in H.
    apply bind_Ok in H as (y & Hy & H).
    apply bind_Ok in H as (ys' & Hys & H).
    inversion H; subst ys.
    constructor; [exact Hy | exact (IH _ Hys)].
Qed.

Lemma Forall2_map_result {X Y : Type} (f : X -> result Y) (l : list X)
  (ys : list Y) :
  Forall2 (fun x y => f x = Ok y) l ys -> map_result f l = Ok ys.
Proof.
  induction 1 as [| x y l ys Hxy _ IH]; cbn [map_result].
  - reflexivity.
  - rewrite Hxy, IH; reflexivity.
Qed.

Lemma range_succ (n : Z) :
  range 1 (n + 1) = map Z.of_nat (seq 1 (Z.to_nat n)).
Proof.
  unfold range.
  replace (n + 1 - 1)%Z with n by lia.
  rewrite <- seq_shift, map_map.
  apply map_ext; intros k; lia.
Qed.

Section Laco.

Context {L : Libm}.
Variable self : CalculadoraFinanceira.
Variables valor_total taxa_mensal parcela_valor : float.

(** One turn of the loop from the balance the recurrence gives is the row
    of the recurrence, appended, and the next balance. *)
Lemma passo_linha (k : nat) (tabela : list linha) :
  passo self taxa_mensal parcela_valor
    (saldo_apos valor_total taxa_mensal parcela_valor k, tabela)
    (Z.of_nat (S k)) =
  (fila <- linha_de self valor_total taxa_mensal parcela_valor (S k) ;;
   Ok (saldo_apos valor_total taxa_mensal parcela_valor (S k),
       tabela ++ [fila])).
Proof.
  unfold passo, linha_de; cbn [saldo_apos pred].
  destruct (Py.round parcela_valor (precisao self)); [| reflexivity].
  destruct (Py.round (_ * taxa_mensal) (precisao self)); [| reflexivity].
  destruct (Py.round (parcela_valor - _) (precisao self)); [| reflexivity].
  destruct (Py.round (Py.max0 _) (precisao self)); reflexivity.
Qed.

Lemma laco_linhas (n k : nat) (tabela : list linha) :
  for_each (passo self taxa_mensal parcela_valor)
    (map Z.of_nat (seq (S k) n))
    (saldo_apos valor_total taxa_mensal parcela_valor k, tabela) =
  (filas <- map_result
              (linha_de self valor_total taxa_mensal parcela_valor)
              (seq (S k) n) ;;
   Ok (saldo_apos valor_total taxa_mensal parcela_valor (k + n),
       tabela ++ filas)).
Proof.
  revert k tabela; induction n as [| n IH]; intros k tabela.
  - cbn [seq map for_each map_result bind].
    rewrite Nat.add_0_r, app_nil_r; reflexivity.
  - cbn [seq map for_each map_result].
    rewrite passo_linha.
    destruct (linha_de self valor_total taxa_mensal parcela_valor (S k))
      as [fila | e]; cbn [bind]; [| reflexivity].
    rewrite IH.
    destruct (map_result _ (seq (S (S k)) n)) as [filas | e]; cbn [bind];
      [| reflexivity].
    rewrite <- app_assoc, Nat.add_succ_r; reflexivity.
Qed.

End Laco.

(** The table is the rows of the recurrence, for the instalment
    [calcular_parcela] returns, exceptions included. *)
Lemma tabela_amortizacao_linhas {L : Libm} (self : CalculadoraFinanceira)
  (valor_total taxa_mensal : float) (num_parcelas : Z) :
  tabela_amortizacao self valor_total taxa_mensal num_parcelas =
  (parcela_valor <-
     calcular_parcela self valor_total taxa_mensal num_parcelas ;;
   map_result (linha_de self valor_total taxa_mensal parcela_valor)
     (seq 1 (Z.to_nat num_parcelas))).
Proof.
  unfold tabela_amortizacao.
  destruct (calcular_parcela self valor_total taxa_mensal num_parcelas)
    as [parcela_valor | e]; cbn [bind]; [| reflexivity].
  rewrite range_succ.
  pose proof (laco_linhas self valor_total taxa_mensal parcela_valor
                (Z.to_nat num_parcelas) 0 []) as H.
  cbn [saldo_apos app] in H; rewrite H.
  destruct (map_result _ _); reflexivity.
Qed.

Lemma linha_de_parcela (self : CalculadoraFinanceira)
  (valor_total taxa_mensal parcela_valor : float) (i : nat) (fila : linha) :
  linha_de self valor_total taxa_mensal parcela_valor i = Ok fila ->
  parcela fila = Z.of_nat i.
Proof.
  unfold linha_de; intros H.
  repeat (apply bind_Ok in H as (? & _ & H)).
  inversion H; reflexivity.
Qed.

Lemma linha_de_Ok (self : CalculadoraFinanceira)
  (valor_total taxa_mensal parcela_valor : float) (i : nat) (fila : linha) :
  linha_de self valor_total taxa_mensal parcela_valor i = Ok fila ->
  let saldo := saldo_apos valor_total taxa_mensal parcela_valor in
  let juros_i := saldo (pred i) * taxa_mensal in
  let amortizacao_i := parcela_valor - juros_i in
  parcela fila = Z.of_nat i /\
  Py.round parcela_valor (precisao self) = Ok (valor_parcela fila) /\
  Py.round juros_i (precisao self) = Ok (juros fila) /\
  Py.round amortizacao_i (precisao self) = Ok (amortizacao fila) /\
  Py.round (Py.max0 (saldo i)) (precisao self) = Ok (saldo_devedor fila).
Proof.
  unfold linha_de; intros H.
  apply bind_Ok in H as (vp & Hvp & H).
  apply bind_Ok in H as (j & Hj & H).
  apply bind_Ok in H as (a & Ha & H).
  apply bind_Ok in H as (sd & Hsd & H).
  inversion H; cbn [parcela valor_parcela juros amortizacao saldo_devedor].
  auto.
Qed.

Lemma Forall2_nth_error {X Y : Type} (R : X -> Y -> Prop) (l : list X)
  (ys : list Y) (k : nat) (y : Y) :
  Forall2 R l ys -> nth_error ys k = Some y ->
  exists x, nth_error l k = Some x /\ R x y.
Proof.
  intros H; revert k; induction H as [| x0 y0 l ys Hxy _ IH]; intros k Hk.
  - destruct k; discriminate.
  - destruct k as [| k]; cbn [nth_error] in *.
    + inversion Hk; subst; eauto.
    + exact (IH _ Hk).
Qed.

(** A returned table: the instalment was computed, and the rows are those
    of the recurrence, in order. *)
Lemma tabela_amortizacao_Ok {L : Libm} (self : CalculadoraFinanceira)
  (valor_total taxa_mensal : float) (num_parcelas : Z)
  (tabela : list linha) :
  tabela_amortizacao self valor_total taxa_mensal num_parcelas = Ok tabela ->
  exists parcela_valor,
    calcular_parcela self valor_total taxa_mensal num_parcelas
      = Ok parcela_valor /\
    Forall2
      (fun i fila =>
         linha_de self valor_total taxa_mensal parcela_valor i = Ok fila)
      (seq 1 (Z.to_nat num_parcelas)) tabela.
Proof.
  rewrite tabela_amortizacao_linhas; intros H.
  apply bind_Ok in H as (parcela_valor & Hp & H).
  exists parcela_valor; split; [exact Hp | exact (map_result_Ok _ _ _ H)].
Qed.

(** ** C8: one row per instalment, numbered from 1 *)

(** C8. A table returned by [tabela_amortizacao] has exactly [num_parcelas]
    rows, and their [parcela] fields are 1, 2, ..., [num_parcelas] in this
    order. *)
Theorem C8_row_count {L : Libm} (self : CalculadoraFinanceira)
  (valor_total taxa_mensal : float) (num_parcelas : Z)
  (tabela : list linha) :
  tabela_amortizacao self valor_total taxa_mensal num_parcelas = Ok tabela ->
  length tabela = Z.to_nat num_parcelas /\
  map parcela tabela = range 1 (num_parcelas + 1).
Proof.
  intros H.
  apply tabela_amortizacao_Ok in H as (parcela_valor & _ & H).
  rewrite range_succ.
  remember (seq 1 (Z.to_nat num_parcelas)) as indices eqn:Hind.
  assert (Hlen : length indices = Z.to_nat num_parcelas)
    by (subst indices; apply length_seq).
  clear Hind; split.
  - rewrite <- Hlen; symmetry; exact (Forall2_length H).
  - clear Hlen; induction H as [| i fila l t Hi _ IH]; cbn [map].
    + reflexivity.
    + rewrite (linha_de_parcela _ _ _ _ _ _ Hi), IH; reflexivity.
Qed.

Lemma C8_row_count_witness :
  exists tabela,
    tabela_amortizacao (L := exact_libm) init_padrao 1000 0.1 3 = Ok tabela /\
    length tabela = 3%nat /\ map parcela tabela = [1; 2; 3]%Z.
Proof.
  eexists; split; [vm_compute; reflexivity |].
  apply (C8_row_count (L := exact_libm) init_padrao 1000 0.1 3).
  vm_compute; reflexivity.
Defined.

(** ** C3: each row from the unrounded balance of the period before *)

(** C3. A returned table has one row for each period from 1 to
    [num_parcelas], and with [parcela_valor] the value [calcular_parcela]
    returns and the balances [saldo 0 = valor_total],
    [saldo i = saldo (i-1) - (parcela_valor - saldo (i-1) * taxa_mensal)]
    never rounded, the row of period [i] holds the roundings, each taken on
    its own, of [parcela_valor], of the interest [saldo (i-1) * taxa_mensal],
    of the principal paid [parcela_valor - interest] and of
    [max(0, saldo i)]. *)
Theorem C3_rows_from_unrounded_balance {L : Libm}
  (self : CalculadoraFinanceira) (valor_total taxa_mensal : float)
  (num_parcelas : Z) (tabela : list linha) :
  tabela_amortizacao self valor_total taxa_mensal num_parcelas = Ok tabela ->
  exists parcela_valor,
    calcular_parcela self valor_total taxa_mensal num_parcelas
      = Ok parcela_valor /\
    let saldo := saldo_apos valor_total taxa_mensal parcela_valor in
    saldo O = valor_total /\
    (forall i,
        saldo (S i) = saldo i - (parcela_valor - saldo i * taxa_mensal)) /\
    List.length tabela = Z.to_nat num_parcelas /\
    forall i,
      (i < Z.to_nat num_parcelas)%nat ->
      exists fila,
        nth_error tabela i = Some fila /\
        let juros_i := saldo i * taxa_mensal in
        let amortizacao_i := parcela_valor - juros_i in
        parcela fila = Z.of_nat (S i) /\
        Py.round parcela_valor (precisao self) = Ok (valor_parcela fila) /\
        Py.round juros_i (precisao self) = Ok (juros fila) /\
        Py.round amortizacao_i (precisao self) = Ok (amortizacao fila) /\
        Py.round (Py.max0 (saldo (S i))) (precisao self)
          = Ok (saldo_devedor fila).
Proof.
  intros H.
  apply tabela_amortizacao_Ok in H as (parcela_valor & Hp & H).
  exists parcela_valor; split; [exact Hp |].
  split; [reflexivity |].
  split; [reflexivity |].
  pose proof (Forall2_length H) as Hlen; rewrite length_seq in Hlen.
  split; [symmetry; exact Hlen |].
  intros i Hi.
  assert (Hlt : (i < List.length tabela)%nat) by (rewrite <- Hlen; exact Hi).
  destruct (nth_error tabela i) as [fila |] eqn:Hfila;
    [| apply nth_error_None in Hfila; lia].
  exists fila; split; [reflexivity |].
  destruct (Forall2_nth_error _ _ _ _ _ H Hfila) as (k & Hk & Hlinha).
  assert (k = S i) as ->.
  { assert (Hlt' : (i < List.length (seq 1 (Z.to_nat num_parcelas)))%nat)
      by (rewrite length_seq; exact Hi).
    rewrite (nth_error_nth' _ O Hlt') in Hk.
    rewrite seq_nth in Hk by exact Hi.
    inversion Hk; reflexivity. }
  exact (linha_de_Ok _ _ _ _ _ _ Hlinha).
Qed.

Lemma C3_rows_from_unrounded_balance_witness :
  let tabela :=
    [ {| parcela := 1; valor_parcela := 402.11; juros := 100;
         amortizacao := 302.11; saldo_devedor := 697.89 |};
      {| parcela := 2; valor_parcela := 402.11; juros := 69.79;
         amortizacao := 332.32; saldo_devedor := 365.57 |};
      {| parcela := 3; valor_parcela := 402.11; juros := 36.56;
         amortizacao := 365.55; saldo_devedor := 0.02 |} ] in
  tabela_amortizacao (L := exact_libm) init_padrao 1000 0.1 3 = Ok tabela /\
  List.length tabela = 3%nat /\
  forall i,
    (i < 3)%nat ->
    exists fila,
      nth_error tabela i = Some fila /\
      parcela fila = Z.of_nat (S i) /\
      Py.round (saldo_apos 1000 0.1 402.11 i * 0.1) 2 = Ok (juros fila) /\
      Py.round (402.11 - saldo_apos 1000 0.1 402.11 i * 0.1) 2
      = Ok (amortizacao fila) /\
      Py.round (Py.max0 (saldo_apos 1000 0.1 402.11 (S i))) 2
      = Ok (saldo_devedor fila).
Proof.
  intros tabela.
  assert (Ht : tabela_amortizacao (L := exact_libm) init_padrao 1000 0.1 3
               = Ok tabela)
    by (vm_compute; reflexivity).
  split; [exact Ht |].
  destruct (C3_rows_from_unrounded_balance (L := exact_libm) init_padrao
              1000 0.1 3 tabela Ht)
    as (parcela_valor & Hp & _ & _ & Hlen & H).
  assert (E : parcela_valor = 402.11)
    by (vm_compute in Hp; inversion Hp; reflexivity).
  subst parcela_valor.
  split; [exact Hlen |].
  intros i Hi.
  destruct (H i Hi) as (fila & Hfila & Hparcela & _ & Hj & Ha & Hsd).
  exists fila; repeat split; assumption.
Defined.



(** ** Facts about binary64 arithmetic

    Proved from the specification of the primitive operations
    ([SpecFloat]): what rounding does to mantissas, that multiplying by one
    changes nothing, and that [1 + x] is zero for [x = -1] only. *)

Section Binary64.

Local Open Scope Z_scope.

Lemma digits2_pos_bounds (m : positive) :
  2 ^ (Z.pos (digits2_pos m) - 1) <= Z.pos m < 2 ^ Z.pos (digits2_pos m).
Proof.
  induction m as [m IH | m IH |].
  - cbn [digits2_pos]. rewrite Pos2Z.inj_succ.
    replace (Z.succ (Z.pos (digits2_pos m)) - 1) with (Z.succ (Z.pos (digits2_pos m) - 1)) by lia.
    rewrite !Z.pow_succ_r by lia. lia.
  - cbn [digits2_pos]. rewrite Pos2Z.inj_succ.
    replace (Z.succ (Z.pos (digits2_pos m)) - 1) with (Z.succ (Z.pos (digits2_pos m) - 1)) by lia.
    rewrite !Z.pow_succ_r by lia. lia.
  - cbn. lia.
Qed.

Lemma shr_1_m (r : shr_record) :
  0 <= shr_m r -> shr_m (shr_1 r) = shr_m r / 2.
Proof.
  destruct r as [m r s]; cbn [shr_m shr_1].
  destruct m as [| [p | p |] | p]; intros H; cbn [shr_m]; try lia.
  all: try reflexivity.
  - rewrite Pos2Z.inj_xI; apply Z.div_unique with 1; lia.
  - rewrite Pos2Z.inj_xO; apply Z.div_unique with 0; lia.
Qed.

Lemma iter_shr_1_m (k : positive) (r : shr_record) :
  0 <= shr_m r -> shr_m (iter_pos shr_1 k r) = shr_m r / 2 ^ Z.pos k.
Proof.
  revert r; induction k as [k IH | k IH |]; intros r Hr; cbn [iter_pos].
  - assert (H1 : 0 <= shr_m (shr_1 r))
      by (rewrite shr_1_m by lia; apply Z.div_pos; lia).
    assert (H2 : 0 <= shr_m (iter_pos shr_1 k (shr_1 r)))
      by (rewrite IH by lia; apply Z.div_pos; lia).
    rewrite IH, IH, shr_1_m by assumption.
    rewrite !Z.div_div by lia.
    f_equal. rewrite <- Z.pow_add_r, <- Z.pow_succ_r by lia. f_equal; lia.
  - assert (H2 : 0 <= shr_m (iter_pos shr_1 k r))
      by (rewrite IH by lia; apply Z.div_pos; lia).
    rewrite IH, IH by assumption.
    rewrite !Z.div_div by lia.
    f_equal. rewrite <- Z.pow_add_r by lia. f_equal; lia.
  - rewrite shr_1_m by assumption. reflexivity.
Qed.

Lemma fexp_eq (x : Z) : fexp prec emax x = Z.max (x - 53) (-1074).
Proof. reflexivity. Qed.

Lemma shr_record_of_loc_m (m : Z) (l : location) :
  shr_m (shr_record_of_loc m l) = m.
Proof. destruct l as [| []]; reflexivity. Qed.

Lemma shr_fexp_pos (m : positive) (e : Z) (l : location) :
  -1074 <= e ->
  0 < shr_m (fst (shr_fexp prec emax (Z.pos m) e l)) /\
  -1074 <= snd (shr_fexp prec emax (Z.pos m) e l).
Proof.
  intros He; unfold shr_fexp, shr; cbn [Zdigits2].
  rewrite fexp_eq.
  pose proof (digits2_pos_bounds m) as [Hlo _].
  set (d := Z.pos (digits2_pos m)) in *.
  destruct (Z.max (d + e - 53) (-1074) - e) as [| k | k] eqn:Hk;
    cbn [fst snd]; rewrite ?shr_record_of_loc_m; try (split; lia).
  rewrite iter_shr_1_m by (rewrite shr_record_of_loc_m; lia).
  rewrite shr_record_of_loc_m.
  split; [| lia].
  apply Z.div_str_pos; split; [apply Z.pow_pos_nonneg; lia |].
  apply Z.le_trans with (2 ^ (d - 1)); [| exact Hlo].
  apply Z.pow_le_mono_r; lia.
Qed.

Lemma round_nearest_even_pos (m : Z) (l : location) :
  0 < m -> 0 < round_nearest_even m l.
Proof.
  intros Hm; destruct l as [| []]; cbn [round_nearest_even];
    try destruct (Z.even m); lia.
Qed.

Lemma binary_round_aux_not_zero (s s' : bool) (m : positive) (e : Z)
  (l : location) :
  -1074 <= e -> binary_round_aux prec emax s (Z.pos m) e l <> S754_zero s'.
Proof.
  intros He; unfold binary_round_aux.
  pose proof (shr_fexp_pos m e l He) as [H1 H1'].
  destruct (shr_fexp prec emax (Z.pos m) e l) as [mrs' e'].
  cbn [fst snd] in H1, H1'.
  pose proof (round_nearest_even_pos _ (loc_of_shr_record mrs') H1) as H2.
  destruct (round_nearest_even (shr_m mrs') (loc_of_shr_record mrs'))
    as [| m2 | m2]; try lia.
  pose proof (shr_fexp_pos m2 e' loc_Exact H1') as [H3 _].
  destruct (shr_fexp prec emax (Z.pos m2) e' loc_Exact) as [mrs'' e''].
  cbn [fst] in H3.
  destruct (shr_m mrs'') as [| m3 | m3]; try lia.
  destruct (e'' <=? emax - prec); discriminate.
Qed.

Lemma binary_round_not_zero (s s' : bool) (m : positive) (e : Z) :
  -1074 <= e -> binary_round prec emax s m e <> S754_zero s'.
Proof.
  intros He; unfold binary_round, shl_align.
  rewrite fexp_eq.
  destruct (Z.max (Z.pos (digits2_pos m) + e - 53) (-1074) - e) eqn:Hk;
    apply binary_round_aux_not_zero; lia.
Qed.

Lemma Pos_iter_xO (m d : positive) :
  Z.pos (Pos.iter xO m d) = Z.pos m * 2 ^ Z.pos d.
Proof.
  induction d as [| d IH] using Pos.peano_ind.
  - cbn [Pos.iter]. rewrite Pos2Z.inj_xO. lia.
  - rewrite Pos.iter_succ, Pos2Z.inj_xO, IH, Pos2Z.inj_succ,
      Z.pow_succ_r by lia.
    lia.
Qed.

Lemma shl_align_value (m : positive) (e e' : Z) :
  e' <= e -> Z.pos (fst (shl_align m e e')) = Z.pos m * 2 ^ (e - e').
Proof.
  intros He; unfold shl_align.
  destruct (e' - e) as [| d | d] eqn:Hd; cbn [fst].
  - replace (e - e') with 0 by lia. lia.
  - lia.
  - rewrite Pos_iter_xO. f_equal. f_equal. lia.
Qed.

Lemma canonical_exponent (m : positive) (e : Z) :
  bounded prec emax m e = true ->
  e = Z.max (Z.pos (digits2_pos m) + e - 53) (-1074).
Proof.
  unfold bounded, canonical_mantissa; intros H.
  apply andb_prop in H as [H _]; apply Z.eqb_eq in H.
  rewrite fexp_eq in H; lia.
Qed.


Lemma pow2_digits (m : positive) (k : Z) :
  0 <= k -> Z.pos m = 2 ^ k -> Z.pos (digits2_pos m) = k + 1.
Proof.
  intros Hk Hm.
  pose proof (digits2_pos_bounds m) as [Hlo Hhi].
  rewrite Hm in Hlo, Hhi.
  apply Z.pow_le_mono_r_iff in Hlo; [| lia | lia].
  apply Z.pow_lt_mono_r_iff in Hhi; lia.
Qed.

Lemma SFadd_one_zero (x : spec_float) :
  valid_binary x = true ->
  SFeqb (SF64add (S754_finite false 4503599627370496 (-52)) x) (S754_zero false) = true ->
  x = S754_finite true 4503599627370496 (-52).
Proof.
  destruct x as [s | s | | s m e]; intros Hv H.
  - destruct s; discriminate.
  - destruct s; discriminate.
  - discriminate.
  - cbn [valid_binary] in Hv.
    pose proof (canonical_exponent m e Hv) as He.
    unfold SF64add, SFadd in H.
    remember (Z.min (-52) e) as ez eqn:Hez.
    assert (Hez1 : ez <= -52) by lia.
    assert (Hez2 : ez <= e) by lia.
    pose proof (shl_align_value 4503599627370496 (-52) ez Hez1) as Ha.
    pose proof (shl_align_value m e ez Hez2) as Hb.
    set (a := fst (shl_align 4503599627370496 (-52) ez)) in *.
    set (b := fst (shl_align m e ez)) in *.
    unfold binary_normalize in H.
    destruct (cond_Zopp false (Z.pos a) + cond_Zopp s (Z.pos b))
      as [| z | z] eqn:Hz.
    + (* the exact sum is zero *)
      destruct s; cbn [cond_Zopp] in Hz; [| lia].
      assert (Hab : Z.pos a = Z.pos b) by lia.
      rewrite Ha, Hb in Hab.
      change (Z.pos 4503599627370496) with (2 ^ 52) in Hab.
      rewrite <- Z.pow_add_r in Hab by lia.
      destruct (Z.le_gt_cases e (-52)) as [Hle | Hgt].
      * assert (Hee : ez = e) by lia; rewrite Hee in Hab.
        replace (e - e) with 0 in Hab by lia.
        rewrite Z.pow_0_r, Z.mul_1_r in Hab.
        symmetry in Hab.
        assert (Hk : 0 <= 52 + (-52 - e)) by lia.
        pose proof (pow2_digits m _ Hk Hab) as Hd.
        assert (H0 : e = -52) by lia.
        rewrite H0 in Hab |- *.
        change (2 ^ (52 + (-52 - -52))) with (Z.pos 4503599627370496) in Hab.
        injection Hab as ->; reflexivity.
      * exfalso.
        assert (Hee : ez = -52) by lia; rewrite Hee in Hab.
        replace (52 + (-52 - -52)) with 52 in Hab by lia.
        replace (e - -52) with (e + 52) in Hab by lia.
        pose proof (digits2_pos_bounds m) as [Hlo Hhi].
        set (d := Z.pos (digits2_pos m)) in *.
        assert (H1 : 2 ^ (d - 1 + (e + 52)) <= 2 ^ 52).
        { rewrite Z.pow_add_r by lia. rewrite Hab.
          apply Z.mul_le_mono_nonneg_r; [apply Z.pow_nonneg; lia | lia]. }
        assert (H2 : 2 ^ 52 < 2 ^ (d + (e + 52))).
        { rewrite Z.pow_add_r by lia. rewrite Hab.
          apply Z.mul_lt_mono_pos_r; [apply Z.pow_pos_nonneg; lia | lia]. }
        apply Z.pow_le_mono_r_iff in H1; [| lia | lia].
        apply Z.pow_lt_mono_r_iff in H2; lia.
    + exfalso.
      pose proof (binary_round_not_zero false) as Hnz.
      destruct (binary_round prec emax false z ez) as [s0 | s0 | | s0 m0 e0] eqn:Hr.
      * apply (Hnz s0 z ez); [lia | exact Hr].
      * destruct s0; discriminate.
      * discriminate.
      * destruct s0; discriminate.
    + exfalso.
      pose proof (binary_round_not_zero true) as Hnz.
      destruct (binary_round prec emax true z ez) as [s0 | s0 | | s0 m0 e0] eqn:Hr.
      * apply (Hnz s0 z ez); [lia | exact Hr].
      * destruct s0; discriminate.
      * discriminate.
      * destruct s0; discriminate.
Qed.

Lemma one_plus_zero (x : float) :
  (1 + x =? 0)%float = true -> x = (-1)%float.
Proof.
  intros H.
  rewrite eqb_spec, add_spec in H.
  apply Prim2SF_inj.
  exact (SFadd_one_zero _ (Prim2SF_valid x) H).
Qed.

Lemma Prim2SF_one : Prim2SF 1 = S754_finite false 4503599627370496 (-52).
Proof. reflexivity. Qed.

Lemma shr_fexp_canonical (m : positive) (e : Z) :
  fexp prec emax (Z.pos (digits2_pos m) + e) = e ->
  shr_fexp prec emax (Z.pos m) e loc_Exact
  = ({| shr_m := Z.pos m; shr_r := false; shr_s := false |}, e).
Proof.
  intros Hc; unfold shr_fexp; cbn [Zdigits2 shr_record_of_loc].
  rewrite Hc, Z.sub_diag; reflexivity.
Qed.

Lemma SFmul_one_r (x : spec_float) :
  valid_binary x = true ->
  SF64mul x (S754_finite false 4503599627370496 (-52)) = x.
Proof.
  destruct x as [s | s | | s m e]; intros Hv.
  - destruct s; reflexivity.
  - destruct s; reflexivity.
  - reflexivity.
  - unfold SF64mul, SFmul.
    cbn [valid_binary] in Hv. unfold bounded, canonical_mantissa in Hv.
    apply andb_prop in Hv as [Hc Hb]. apply Z.eqb_eq in Hc.
    rewrite xorb_false_r.
    rewrite Pos.mul_comm. cbn [Pos.mul].
    unfold binary_round_aux.
    assert (H1 : forall z, shr_fexp prec emax (Z.pos z) (e + -52) loc_Exact = 
      shr (shr_record_of_loc (Z.pos z) loc_Exact) (e + -52) (fexp prec emax (Z.pos (digits2_pos z) + (e + -52)) - (e + -52))) by reflexivity.
    rewrite H1; clear H1.
    cbn [digits2_pos].
    rewrite !Pos2Z.inj_succ.
    match goal with |- context [fexp prec emax ?a] => replace a with (Z.pos (digits2_pos m) + e) by lia end.
    rewrite Hc.
    replace (e - (e + -52)) with 52 by lia.
    cbn [shr shr_record_of_loc iter_pos shr_1 orb].
    cbn [shr_m loc_of_shr_record round_nearest_even].
    replace (e + -52 + 52) with e by lia.
    fold (shr_fexp prec emax (Z.pos m) e loc_Exact).
    rewrite (shr_fexp_canonical m e Hc).
    cbn [shr_m]. rewrite Hb. reflexivity.
Qed.

Lemma mul_one_r (x : float) : (x * 1)%float = x.
Proof.
  apply Prim2SF_inj.
  rewrite mul_spec, Prim2SF_one.
  apply SFmul_one_r, Prim2SF_valid.
Qed.

End Binary64.

(** ** The power, once the special cases are out of the way *)

(** For a finite base that is positive and not one, and a non-zero
    exponent, [x ** n] is what the C library returns. *)
Lemma pow_libm {L : Libm} (iv : float) (n : Z) (iw : float) :
  Py.float_of_int n = Ok iw -> n <> 0%Z ->
  is_nan iv = false -> is_infinity iv = false ->
  (iv =? 0) = false -> (iv <? 0) = false -> (iv =? 1) = false ->
  Py.pow iv n =
  if is_infinity (c_pow iv iw) then Raise OverflowError
  else Ok (c_pow iv iw).
Proof.
  intros Hiw Hn Hnan Hinf H0 Hneg H1; unfold Py.pow.
  rewrite Hiw; cbn [bind].
  destruct (Z.eqb_spec n 0) as [E | _]; [contradiction |].
  rewrite Hnan, Hinf, H0, Hneg; cbn [andb].
  rewrite H1; reflexivity.
Qed.

(** [1.0 ** n] is [1.0], whatever the library. *)
Lemma pow_one {L : Libm} (n : Z) :
  returns (Py.float_of_int n) -> Py.pow 1 n = Ok 1.
Proof.
  intros [iw Hiw]; unfold Py.pow.
  rewrite Hiw; cbn [bind].
  destruct (n =? 0)%Z; reflexivity.
Qed.

Lemma exact_libm_faithful : faithful exact_libm.
Proof. intros x y _ _ _; left; reflexivity. Qed.

Lemma calcular_parcela_libm {L : Libm} (self : CalculadoraFinanceira)
  (valor_total taxa_mensal : float) (num_parcelas : Z) (iw : float) :
  (taxa_mensal <=? 0) = false -> (0 < num_parcelas)%Z ->
  Py.float_of_int num_parcelas = Ok iw ->
  is_nan (1 + taxa_mensal) = false -> is_infinity (1 + taxa_mensal) = false ->
  (1 + taxa_mensal =? 0) = false -> (1 + taxa_mensal <? 0) = false ->
  (1 + taxa_mensal =? 1) = false ->
  calcular_parcela self valor_total taxa_mensal num_parcelas =
  let potencia := c_pow (1 + taxa_mensal) iw in
  if is_infinity potencia then Raise OverflowError
  else
    fator <- Py.truediv (taxa_mensal * potencia) (potencia - 1) ;;
    Py.round (valor_total * fator) (precisao self).
Proof.
  intros Ht Hn Hiw Hnan Hinf H0 Hneg H1.
  rewrite calcular_parcela_valida by assumption.
  rewrite (pow_libm _ _ iw) by (assumption || lia).
  cbv zeta; destruct (is_infinity (c_pow _ _)); reflexivity.
Qed.

(** In a proof about one call of the library at a concrete point: the three
    values a faithful library can return there, each checked by
    computation. *)
Ltac por_fidelidade HL x y :=
  let w := fresh "w" in
  let Hw := fresh "Hw" in
  let H := fresh "H" in
  remember (c_pow x y) as w eqn:Hw;
  assert (H : within_ulp (Exact.pow x y) w)
    by (rewrite Hw; apply HL; [reflexivity | reflexivity | discriminate]);
  clear Hw;
  destruct H as [-> | [-> | ->]]; vm_compute; repeat split.

(** ** C6: compound interest *)

Lemma float_of_int_zero : Py.float_of_int 0 = Ok 0.
Proof. reflexivity. Qed.

(** C6, as amended.  With zero periods [juros_compostos] returns the rounded
    principal; whenever the power [(1 + taxa) ** periodos] is computed, for
    negative and zero periods too, it returns [principal] times the power,
    rounded to [precisao]; it never raises [ValueError], but it does fail
    when the arithmetic does: an exception of the power is the exception of
    the call, and no exception other than [ZeroDivisionError] and
    [OverflowError] is ever raised; and [juros_compostos(1000, 0.05, 12)] is
    1795.86 with two decimals, on every platform whose [pow] is faithful. *)
Theorem C6_compound_interest {L : Libm} (self : CalculadoraFinanceira)
  (principal taxa : float) (periodos : Z) :
  juros_compostos self principal taxa 0 = Py.round principal (precisao self)
  /\ (forall potencia,
        Py.pow (1 + taxa) periodos = Ok potencia ->
        juros_compostos self principal taxa periodos
        = Py.round (principal * potencia) (precisao self))
  /\ (forall e,
        Py.pow (1 + taxa) periodos = Raise e ->
        juros_compostos self principal taxa periodos = Raise e)
  /\ (forall e,
        juros_compostos self principal taxa periodos = Raise e ->
        e = ZeroDivisionError \/ e = OverflowError)
  /\ (faithful L -> juros_compostos init_padrao 1000 0.05 12 = Ok 1795.86).
Proof.
  repeat split.
  - unfold juros_compostos, Py.pow.
    rewrite float_of_int_zero; cbn [bind Z.eqb].
    rewrite mul_one_r; reflexivity.
  - intros potencia H; unfold juros_compostos; rewrite H; reflexivity.
  - intros e H; unfold juros_compostos; rewrite H; reflexivity.
  - apply juros_compostos_raises.
  - intros HL; unfold juros_compostos.
    rewrite (pow_libm (1 + 0.05) 12 12) by (reflexivity || discriminate).
    por_fidelidade HL (1 + 0.05) 12.
Qed.

Lemma C6_compound_interest_witness :
  juros_compostos (L := exact_libm) init_padrao 1000 0.05 12 = Ok 1795.86
  /\ juros_compostos (L := exact_libm) init_padrao 1000 (-1) (-2)
     = Raise ZeroDivisionError.
Proof.
  split.
  - exact (proj2 (proj2 (proj2 (proj2
             (C6_compound_interest (L := exact_libm) init_padrao 0 0 0))))
             exact_libm_faithful).
  - apply (proj1 (proj2 (proj2
             (C6_compound_interest (L := exact_libm) init_padrao
                1000 (-1) (-2))))).
    reflexivity.
Defined.

(** Against C6 as the specification states it: with [taxa = -1] and a
    negative number of periods the call raises [ZeroDivisionError]. *)
Lemma C6_counterexample :
  juros_compostos (L := exact_libm) init_padrao 1000 (-1) (-1)
  = Raise ZeroDivisionError.
Proof. reflexivity. Qed.

(** ** C10: a zero base and a negative exponent *)

(** C10, as amended.  With a negative number of periods that converts to a
    float, [juros_compostos] raises [ZeroDivisionError] exactly when
    [taxa = -1], whatever the principal: then [1 + taxa] is zero and is
    raised to a negative power.  With any other rate it returns: when the
    power is computed the result is the rounding of [principal] times the
    power, and the power itself fails with an [OverflowError] only, which is
    then the failure of the call. *)
Theorem C10_zero_to_negative_power {L : Libm} (self : CalculadoraFinanceira)
  (principal taxa : float) (periodos : Z) :
  (periodos < 0)%Z ->
  (juros_compostos self principal taxa periodos = Raise ZeroDivisionError
   <-> taxa = (-1)%float /\ returns (Py.float_of_int periodos))
  /\ (taxa <> (-1)%float ->
      (forall potencia,
          Py.pow (1 + taxa) periodos = Ok potencia ->
          juros_compostos self principal taxa periodos
          = Py.round (principal * potencia) (precisao self))
      /\ (forall e,
            Py.pow (1 + taxa) periodos = Raise e ->
            e = OverflowError /\
            juros_compostos self principal taxa periodos
            = Raise OverflowError)
      /\ (returns (juros_compostos self principal taxa periodos)
          \/ juros_compostos self principal taxa periodos
             = Raise OverflowError)).
Proof.
  intros Hneg.
  assert (Hiff :
    juros_compostos self principal taxa periodos = Raise ZeroDivisionError
    <-> taxa = (-1)%float /\ returns (Py.float_of_int periodos)).
  { split.
    - unfold juros_compostos; intros H.
      apply bind_Raise in H as [H | (w & _ & H)].
      + apply pow_ZeroDivisionError in H as (Hret & _ & _ & _ & H0).
        split; [exact (one_plus_zero _ H0) | exact Hret].
      + apply round_raises in H; discriminate.
    - intros [-> Hret]; unfold juros_compostos.
      assert (H : Py.pow (1 + -1) periodos = Raise ZeroDivisionError).
      { apply pow_ZeroDivisionError; repeat split; assumption || reflexivity. }
      rewrite H; reflexivity. }
  split; [exact Hiff |].
  intros Htaxa.
  split; [| split].
  - intros potencia H; unfold juros_compostos; rewrite H; reflexivity.
  - intros e H.
    assert (He : e = OverflowError).
    { destruct (pow_raises _ _ _ H) as [-> | ->]; [| reflexivity].
      apply pow_ZeroDivisionError in H as (_ & _ & _ & _ & H0).
      exfalso; exact (Htaxa (one_plus_zero _ H0)). }
    split; [exact He |].
    subst e; unfold juros_compostos; rewrite H; reflexivity.
  - destruct (juros_compostos self principal taxa periodos) as [v | e] eqn:E.
    + left; exists v; reflexivity.
    + right.
      destruct (juros_compostos_raises self _ _ _ _ E) as [-> | ->];
        [| reflexivity].
      exfalso; apply Htaxa.
      exact (proj1 (proj1 Hiff eq_refl)).
Qed.

Lemma taxa_exemplo_not_minus_one : 0.05 <> -1.
Proof.
  intros H.
  pose proof (f_equal (fun x => x <? 0) H) as E.
  vm_compute in E; discriminate.
Qed.

Lemma C10_zero_to_negative_power_witness :
  juros_compostos (L := exact_libm) init_padrao 1000 (-1) (-3)
  = Raise ZeroDivisionError
  /\ juros_compostos (L := exact_libm) init_padrao 1000 0.05 (-3)
     = Ok 863.84.
Proof.
  split.
  - apply (proj1 (C10_zero_to_negative_power (L := exact_libm) init_padrao
                    1000 (-1) (-3) eq_refl)).
    split; [reflexivity | exists (-3); reflexivity].
  - eassert (Hpow : Py.pow (L := exact_libm) (1 + 0.05) (-3) = Ok _)
      by (vm_compute; reflexivity).
    rewrite (proj1 (proj2 (C10_zero_to_negative_power (L := exact_libm)
                             init_padrao 1000 0.05 (-3) eq_refl)
                      taxa_exemplo_not_minus_one) _ Hpow).
    vm_compute; reflexivity.
Defined.

(** Against C10 as the specification states it: a rate other than -1 with
    negative periods need not return; [0.5 ** -1100] is [2 ** 1100], too
    large for a float. *)
Lemma C10_counterexample :
  juros_compostos (L := exact_libm) init_padrao 1000 (-0.5) (-1100)
  = Raise OverflowError.
Proof. vm_compute; reflexivity. Qed.

(** ** C9: return on investment *)

(** C9. For an initial investment other than zero [roi] returns
    [((retorno_final - investimento_inicial) / investimento_inicial) * 100]
    rounded to [precisao]; it raises [ZeroDivisionError] exactly when the
    initial investment is zero; and [roi(5000, 7500)] is 50.0. *)
Theorem C9_roi (self : CalculadoraFinanceira)
  (investimento_inicial retorno_final : float) :
  ((investimento_inicial =? 0) = false ->
   roi self investimento_inicial retorno_final
   = Py.round
       ((retorno_final - investimento_inicial) / investimento_inicial * 100)
       (precisao self))
  /\ (roi self investimento_inicial retorno_final = Raise ZeroDivisionError
      <-> (investimento_inicial =? 0) = true)
  /\ roi init_padrao 5000 7500 = Ok 50.
Proof.
  repeat split.
  - intros H; unfold roi; rewrite truediv_Ok by exact H; reflexivity.
  - intros H.
    destruct (roi_raises _ _ _ _ H) as [[_ H0] | [E _]];
      [exact H0 | discriminate].
  - intros H; unfold roi, Py.truediv; rewrite H; reflexivity.
Qed.

Lemma C9_roi_witness :
  roi init_padrao 8 10 = Py.round ((10 - 8) / 8 * 100) 2.
Proof.
  exact (proj1 (C9_roi init_padrao 8 10) eq_refl).
Defined.

(** ** C7: accumulated inflation *)

(** C7. [calcular_inflacao_acumulada] multiplies the factors
    [1 + taxa / 100] in the order of the list, from 1.0, and returns the
    product less one, times 100, rounded to two decimals: the function takes
    no calculator and so no other precision.  The empty list gives 0.0 and
    [[0.5, 0.3, 0.8, 0.4]] gives 2.01. *)
Theorem C7_cumulative_inflation (taxas_mensais : list float) :
  calcular_inflacao_acumulada taxas_mensais
  = Py.round
      ((fold_left (fun acumulado taxa => acumulado * (1 + taxa / 100))
          taxas_mensais 1 - 1) * 100) 2
  /\ calcular_inflacao_acumulada [] = Ok 0
  /\ calcular_inflacao_acumulada [0.5; 0.3; 0.8; 0.4] = Ok 2.01.
Proof.
  repeat split.
  unfold calcular_inflacao_acumulada.
  rewrite acumular_fold; reflexivity.
Qed.

(** ** C5: the instalment of the Price system *)

(** C5, as amended.  For a rate and a number of instalments that pass the
    validation, with [w] the float [(1 + taxa_mensal) ** num_parcelas]:
    [calcular_parcela] returns
    [valor_total * ((taxa_mensal * w) / (w - 1))] rounded to [precisao],
    provided [w] was computed and is not 1.0; it raises [ZeroDivisionError]
    when [w] is 1.0, and [OverflowError] when the power overflows.  On every
    platform whose [pow] is faithful [calcular_parcela(50000, 0.015, 48)] is
    1468.75, which is the exact value of the formula,
    [750 * 1.015^48 / (1.015^48 - 1)], rounded to two decimals. *)
Theorem C5_price_instalment {L : Libm} (self : CalculadoraFinanceira)
  (valor_total taxa_mensal : float) (num_parcelas : Z) :
  (taxa_mensal <=? 0) = false -> (0 < num_parcelas)%Z ->
  (forall w,
      Py.pow (1 + taxa_mensal) num_parcelas = Ok w ->
      calcular_parcela self valor_total taxa_mensal num_parcelas
      = if w - 1 =? 0 then Raise ZeroDivisionError
        else Py.round (valor_total * ((taxa_mensal * w) / (w - 1)))
               (precisao self))
  /\ (forall e,
        Py.pow (1 + taxa_mensal) num_parcelas = Raise e ->
        e = OverflowError /\
        calcular_parcela self valor_total taxa_mensal num_parcelas
        = Raise OverflowError)
  /\ (faithful L ->
      calcular_parcela init_padrao 50000 0.015 48 = Ok 1468.75)
  /\ (Z.abs (2 * 100 * (750 * 1015 ^ 48)
             - 2 * 146875 * (1015 ^ 48 - 1000 ^ 48))
      <= 1015 ^ 48 - 1000 ^ 48)%Z.
Proof.
  intros Ht Hn; repeat split.
  - intros w Hw.
    rewrite calcular_parcela_valida by assumption.
    rewrite Hw; cbn [bind]; unfold Py.truediv.
    destruct (w - 1 =? 0); reflexivity.
  - destruct (pow_raises _ _ _ H) as [-> | ->]; [| reflexivity].
    apply pow_ZeroDivisionError in H as (_ & Hneg & _); lia.
  - rewrite calcular_parcela_valida by assumption.
    rewrite H; cbn [bind].
    destruct (pow_raises _ _ _ H) as [-> | ->]; [| reflexivity].
    apply pow_ZeroDivisionError in H as (_ & Hneg & _); lia.
  - intros HL.
    rewrite (calcular_parcela_libm init_padrao 50000 0.015 48 48)
      by (reflexivity || lia).
    cbv zeta.
    por_fidelidade HL (1 + 0.015) 48.
  - vm_compute; discriminate.
Qed.

Lemma C5_price_instalment_witness :
  calcular_parcela (L := exact_libm) init_padrao 50000 0.015 48 = Ok 1468.75.
Proof.
  exact (proj1 (proj2 (proj2
           (C5_price_instalment (L := exact_libm) init_padrao 50000 0.015 48
              eq_refl eq_refl)))
           exact_libm_faithful).
Defined.

(** Against C5 as the specification states it: a positive rate too small
    for [1 + taxa] to differ from 1.0 passes the validation and divides by
    zero. *)
Lemma C5_counterexample :
  (0 <? 1e-20) = true /\
  calcular_parcela (L := exact_libm) init_padrao 1000 1e-20 12
  = Raise ZeroDivisionError.
Proof. split; reflexivity. Qed.

(** ** C4: the rounding rule *)

(** C4, at the input where the code departs from it.  The principal 0.125
    at rate zero is 0.125 after any number of periods, which is 12.5
    hundredths exactly; rounding half up gives 13 hundredths, but [round]
    takes ties to the even digit and [juros_compostos] returns 0.12. *)
Theorem C4_round_ties_to_even {L : Libm} :
  juros_compostos init_padrao 0.125 0 1 = Ok 0.12
  /\ (unidades 0.125 * 100 = 125 * 2 ^ 1074 / 10)%Z
  /\ Exact.round_half_up 125 10 = 13%Z
  /\ Exact.round_half_even 125 10 = 12%Z.
Proof.
  repeat split.
Qed.



(** ** Signs, zeros and values that are not numbers

    What rounding keeps of the sign of a float, and the three cases the
    functions of the module meet at their edges: [x - x], [0 / x] and
    [x * nan]. *)

Lemma SF_nonneg_ltb (x : spec_float) :
  SF_nonneg x = true -> SFltb x (S754_zero false) = false.
Proof. destruct x as [[] | [] | | [] m e]; (discriminate || reflexivity). Qed.

Lemma binary_round_aux_nonneg (m e : Z) (l : location) :
  SF_nonneg (binary_round_aux prec emax false m e l) = true.
Proof.
  unfold binary_round_aux.
  destruct (shr_fexp prec emax m e l) as [mrs' e'].
  destruct (shr_fexp prec emax _ e' loc_Exact) as [mrs'' e''].
  destruct (shr_m mrs''); [reflexivity | | reflexivity].
  destruct (e'' <=? emax - prec)%Z; reflexivity.
Qed.

Lemma binary_round_nonneg (m : positive) (e : Z) :
  SF_nonneg (binary_round prec emax false m e) = true.
Proof.
  unfold binary_round.
  destruct (shl_align m e _) as [mz ez].
  apply binary_round_aux_nonneg.
Qed.

Lemma binary_normalize_nonneg (z e : Z) :
  (0 <= z)%Z -> SF_nonneg (binary_normalize prec emax z e false) = true.
Proof.
  intros Hz; destruct z as [| p | p]; cbn [binary_normalize];
    [reflexivity | apply binary_round_nonneg | lia].
Qed.

Lemma SFdiv_nonneg (a b : positive) (ea eb : Z) :
  SF_nonneg (SFdiv prec emax (S754_finite false a ea) (S754_finite false b eb))
  = true.
Proof.
  unfold SFdiv.
  destruct (SFdiv_core_binary prec emax (Z.pos a) ea (Z.pos b) eb)
    as [[mz ez] lz].
  apply binary_round_aux_nonneg.
Qed.

Lemma SFldexp_nonneg (x : spec_float) (e : Z) :
  SF_nonneg x = true -> SF_nonneg (SFldexp prec emax x e) = true.
Proof.
  destruct x as [s | s | | [] m ex]; cbn [SFldexp]; intros H;
    try exact H; try discriminate.
  apply binary_round_nonneg.
Qed.

Lemma SF2Prim_nonneg (x : spec_float) :
  SF_nonneg x = true -> (SF2Prim x <? 0) = false.
Proof.
  destruct x as [[] | [] | | [] m e]; intros H;
    try reflexivity; try discriminate.
  cbn [SF2Prim].
  rewrite ltb_spec, Z_ldexp_spec, of_uint63_spec.
  apply SF_nonneg_ltb, SFldexp_nonneg, binary_normalize_nonneg.
  apply Uint63.to_Z_bounded.
Qed.

Lemma positive_cases (x : float) :
  (0 <? x) = true ->
  Prim2SF x = S754_infinity false \/
  exists m e, Prim2SF x = S754_finite false m e.
Proof.
  rewrite ltb_spec; change (Prim2SF 0) with (S754_zero false).
  destruct (Prim2SF x) as [[] | [] | | [] m e]; try discriminate; eauto.
Qed.

Lemma positive_not_negative (x : float) :
  (0 <? x) = true -> (x <? 0) = false.
Proof.
  intros H; rewrite ltb_spec.
  destruct (positive_cases x H) as [-> | (m & e & ->)]; reflexivity.
Qed.

Lemma zero_times_positive (x : float) :
  (0 <? x) = true -> (0 * x <? 0) = false.
Proof.
  intros H; rewrite ltb_spec, mul_spec.
  destruct (positive_cases x H) as [-> | (m & e & ->)]; reflexivity.
Qed.

Lemma round_zero (ndigits : Z) : Py.round 0 ndigits = Ok 0.
Proof.
  unfold Py.round; cbn [orb].
  change (is_nan 0 || is_infinity 0) with false; cbv iota.
  destruct (323 <? ndigits)%Z; [reflexivity |].
  destruct (ndigits <? -308)%Z; reflexivity.
Qed.

Lemma round_neg_zero (ndigits : Z) : Py.round (-0) ndigits = Ok (-0).
Proof.
  unfold Py.round.
  change (is_nan (-0) || is_infinity (-0)) with false; cbv iota.
  destruct (323 <? ndigits)%Z; [reflexivity |].
  destruct (ndigits <? -308)%Z; reflexivity.
Qed.

Lemma double_round_positive (x : float) (ndigits : Z) (v : float) :
  (0 <? x) = true -> Py.double_round x ndigits = Ok v -> (v <? 0) = false.
Proof.
  intros Hx; unfold Py.double_round.
  destruct (positive_cases x Hx) as [-> | (m & e & ->)].
  - intros H; inversion H; subst v; exact (positive_not_negative x Hx).
  - match goal with
    | |- (if is_infinity (SF2Prim ?r) then _ else _) = _ -> _ =>
        assert (Hr : SF_nonneg r = true)
    end.
    { destruct (Exact.round_half_even _ _) as [| k | k];
        [reflexivity | | reflexivity].
      destruct (0 <=? ndigits)%Z.
      - apply SFdiv_nonneg.
      - apply binary_normalize_nonneg; cbn [cond_Zopp].
        apply Z.mul_nonneg_nonneg; [lia | apply Z.pow_nonneg; lia]. }
    destruct (is_infinity _); [discriminate |].
    intros H; inversion H; subst v.
    exact (SF2Prim_nonneg _ Hr).
Qed.

Lemma round_max0_not_negative (x : float) (ndigits : Z) (v : float) :
  Py.round (Py.max0 x) ndigits = Ok v -> (v <? 0) = false.
Proof.
  unfold Py.max0.
  destruct (0 <? x) eqn:Hx.
  - unfold Py.round.
    destruct (is_nan x || is_infinity x).
    { intros H; inversion H; subst v; exact (positive_not_negative x Hx). }
    destruct (323 <? ndigits)%Z.
    { intros H; inversion H; subst v; exact (positive_not_negative x Hx). }
    destruct (ndigits <? -308)%Z.
    { intros H; inversion H; subst v; exact (zero_times_positive x Hx). }
    apply double_round_positive; exact Hx.
  - rewrite round_zero; intros H; inversion H; reflexivity.
Qed.

Lemma finite_cases (x : float) :
  is_nan x = false -> is_infinity x = false -> (x =? 0) = false ->
  exists s m e, Prim2SF x = S754_finite s m e.
Proof.
  intros Hnan Hinf H0.
  destruct (Prim2SF x) as [s | s | | s m e] eqn:E; eauto.
  - apply (f_equal SF2Prim) in E; rewrite SF2Prim_Prim2SF in E; subst x.
    destruct s; discriminate.
  - apply (f_equal SF2Prim) in E; rewrite SF2Prim_Prim2SF in E; subst x.
    destruct s; discriminate.
  - apply (f_equal SF2Prim) in E; rewrite SF2Prim_Prim2SF in E; subst x.
    discriminate.
Qed.

Lemma sub_diag (x : float) :
  is_nan x = false -> is_infinity x = false -> (x =? 0) = false ->
  x - x = 0.
Proof.
  intros Hnan Hinf H0.
  destruct (finite_cases x Hnan Hinf H0) as (s & m & e & E).
  apply Prim2SF_inj; rewrite sub_spec, E.
  unfold SF64sub, SFsub.
  rewrite Z.sub_diag; reflexivity.
Qed.

Lemma zero_div (x : float) :
  is_nan x = false -> is_infinity x = false -> (x =? 0) = false ->
  0 / x = 0 \/ 0 / x = -0.
Proof.
  intros Hnan Hinf H0.
  destruct (finite_cases x Hnan Hinf H0) as (s & m & e & E).
  destruct s; [right | left]; apply Prim2SF_inj; rewrite div_spec, E;
    reflexivity.
Qed.

Lemma mul_nan_r (x : float) : x * nan = nan.
Proof.
  apply Prim2SF_inj; rewrite mul_spec.
  change (Prim2SF nan) with S754_nan.
  destruct (Prim2SF x) as [s | s | | s m e]; reflexivity.
Qed.

Lemma tabela_amortizacao_nth {L : Libm} (self : CalculadoraFinanceira)
  (valor_total taxa_mensal : float) (num_parcelas : Z)
  (tabela : list linha) (parcela_valor : float) (i : nat) (fila : linha) :
  tabela_amortizacao self valor_total taxa_mensal num_parcelas = Ok tabela ->
  calcular_parcela self valor_total taxa_mensal num_parcelas
    = Ok parcela_valor ->
  nth_error tabela i = Some fila ->
  linha_de self valor_total taxa_mensal parcela_valor (S i) = Ok fila.
Proof.
  intros H Hp Hi.
  apply tabela_amortizacao_Ok in H as (parcela_valor' & Hp' & H).
  rewrite Hp in Hp'; inversion Hp'; subst parcela_valor'.
  destruct (Forall2_nth_error _ _ _ _ _ H Hi) as (k & Hk & Hfila).
  assert (k = S i) as ->; [| exact Hfila].
  assert (Hlt : (i < List.length (seq 1 (Z.to_nat num_parcelas)))%nat)
    by (apply nth_error_Some; rewrite Hk; discriminate).
  rewrite (nth_error_nth' _ O Hlt) in Hk.
  rewrite length_seq in Hlt.
  rewrite seq_nth in Hk by exact Hlt.
  inversion Hk; reflexivity.
Qed.

(** ** C2: how the schedule ends *)

(** Two schedules that do not close, on every platform whose [pow] is
    faithful.  For 1000 at 10% in 3 instalments the rounded instalment,
    402.11, is below the exact one: the balance left after the last period
    is positive, [max(0, saldo)] keeps it, and the last row reports 0.02.
    For 1000 at 50% in 10 instalments the last row reports 0.43, and the
    principal paid, 999.58 in all, misses the financed amount by more than
    10 hundredths. *)
Lemma schedules_left_open {L : Libm} :
  faithful L ->
  tabela_amortizacao init_padrao 1000 0.1 3
  = Ok [ {| parcela := 1; valor_parcela := 402.11; juros := 100;
            amortizacao := 302.11; saldo_devedor := 697.89 |};
         {| parcela := 2; valor_parcela := 402.11; juros := 69.79;
            amortizacao := 332.32; saldo_devedor := 365.57 |};
         {| parcela := 3; valor_parcela := 402.11; juros := 36.56;
            amortizacao := 365.55; saldo_devedor := 0.02 |} ]
  /\ (tabela <- tabela_amortizacao init_padrao 1000 0.5 10 ;;
      Ok (amortiza_o_total init_padrao 1000 tabela,
          saldo_final_zero tabela,
          map amortizacao tabela,
          map saldo_devedor (skipn 9 tabela)))
     = Ok (false, false,
           [8.82; 13.23; 19.84; 29.77; 44.65; 66.98; 100.47; 150.7; 226.05;
            339.07],
           [0.43]).
Proof.
  intros HL; split; unfold tabela_amortizacao.
  - rewrite (calcular_parcela_libm init_padrao 1000 0.1 3 3)
      by (reflexivity || lia).
    cbv zeta.
    por_fidelidade HL (1 + 0.1) 3.
  - rewrite (calcular_parcela_libm init_padrao 1000 0.5 10 10)
      by (reflexivity || lia).
    cbv zeta.
    por_fidelidade HL (1 + 0.5) 10.
Qed.

(** Against C2 as the specification states it: a last balance that is not
    zero, and principal paid that misses the financed amount by more than
    the tolerance. *)
Lemma C2_counterexample :
  tabela_amortizacao (L := exact_libm) init_padrao 1000 0.1 3
  = Ok [ {| parcela := 1; valor_parcela := 402.11; juros := 100;
            amortizacao := 302.11; saldo_devedor := 697.89 |};
         {| parcela := 2; valor_parcela := 402.11; juros := 69.79;
            amortizacao := 332.32; saldo_devedor := 365.57 |};
         {| parcela := 3; valor_parcela := 402.11; juros := 36.56;
            amortizacao := 365.55; saldo_devedor := 0.02 |} ]
  /\ (tabela <- tabela_amortizacao (L := exact_libm) init_padrao 1000 0.5 10 ;;
      Ok (amortiza_o_total init_padrao 1000 tabela,
          saldo_final_zero tabela,
          map amortizacao tabela,
          map saldo_devedor (skipn 9 tabela)))
     = Ok (false, false,
           [8.82; 13.23; 19.84; 29.77; 44.65; 66.98; 100.47; 150.7; 226.05;
            339.07],
           [0.43]).
Proof. exact (schedules_left_open (L := exact_libm) exact_libm_faithful). Qed.

Lemma calcular_parcela_Ok_valid {L : Libm} (self : CalculadoraFinanceira)
  (valor_total taxa_mensal : float) (num_parcelas : Z) (v : float) :
  calcular_parcela self valor_total taxa_mensal num_parcelas = Ok v ->
  (taxa_mensal <=? 0) = false /\ (0 < num_parcelas)%Z.
Proof.
  unfold calcular_parcela.
  destruct (taxa_mensal <=? 0); [discriminate |].
  destruct (Z.leb_spec num_parcelas 0); [discriminate |].
  intros _; split; [reflexivity | assumption].
Qed.

(** C2, as amended.  In a returned table the last row holds the rounding of
    [max(0, saldo)], for [saldo] the unrounded balance after the last
    period: its [saldo_devedor] is never negative, and it is exactly 0.0
    whenever that balance is not above zero. *)
Theorem C2_last_balance {L : Libm} (self : CalculadoraFinanceira)
  (valor_total taxa_mensal : float) (num_parcelas : Z)
  (tabela : list linha) :
  tabela_amortizacao self valor_total taxa_mensal num_parcelas = Ok tabela ->
  exists parcela_valor ultima,
    calcular_parcela self valor_total taxa_mensal num_parcelas
      = Ok parcela_valor /\
    tabela = removelast tabela ++ [ultima] /\
    let saldo :=
      saldo_apos valor_total taxa_mensal parcela_valor
        (Z.to_nat num_parcelas) in
    Py.round (Py.max0 saldo) (precisao self) = Ok (saldo_devedor ultima) /\
    (saldo_devedor ultima <? 0) = false /\
    ((0 <? saldo) = false -> saldo_devedor ultima = 0).
Proof.
  intros H.
  destruct (tabela_amortizacao_Ok _ _ _ _ _ H) as (parcela_valor & Hp & HF).
  destruct (calcular_parcela_Ok_valid _ _ _ _ _ Hp) as [_ Hn].
  pose proof (Forall2_length HF) as Hlen; rewrite length_seq in Hlen.
  assert (Hne : tabela <> []).
  { intros ->; cbn [List.length] in Hlen; lia. }
  destruct (exists_last Hne) as (inicio & ultima & Ht).
  exists parcela_valor, ultima.
  split; [exact Hp |].
  split; [rewrite Ht, removelast_last; reflexivity |].
  assert (Hi : nth_error tabela (Z.to_nat num_parcelas - 1) = Some ultima).
  { rewrite Ht, length_app in Hlen; cbn [List.length] in Hlen.
    rewrite Ht, nth_error_app2 by lia.
    replace (Z.to_nat num_parcelas - 1 - List.length inicio)%nat with O
      by lia.
    reflexivity. }
  pose proof (tabela_amortizacao_nth _ _ _ _ _ _ _ _ H Hp Hi) as Hfila.
  replace (S (Z.to_nat num_parcelas - 1)) with (Z.to_nat num_parcelas)
    in Hfila by lia.
  apply linha_de_Ok in Hfila as (_ & _ & _ & _ & Hsd).
  cbv zeta; split; [exact Hsd |].
  split; [exact (round_max0_not_negative _ _ _ Hsd) |].
  intros Hsaldo; unfold Py.max0 in Hsd.
  rewrite Hsaldo, round_zero in Hsd; inversion Hsd; reflexivity.
Qed.

Lemma C2_last_balance_witness :
  exists tabela ultima,
    tabela_amortizacao (L := exact_libm) init_padrao 100 0.1 2 = Ok tabela /\
    tabela = removelast tabela ++ [ultima] /\
    saldo_devedor ultima = 0.
Proof.
  eexists.
  match goal with
  | |- exists ultima, _ = Ok ?t /\ _ =>
      assert (Ht : tabela_amortizacao (L := exact_libm) init_padrao
                     100 0.1 2 = Ok t);
        [vm_compute; reflexivity |];
      destruct (C2_last_balance (L := exact_libm) init_padrao 100 0.1 2 t Ht)
        as (parcela_valor & ultima & Hp & Hlast & _ & _ & Hzero)
  end.
  exists ultima.
  split; [exact Ht |].
  split; [exact Hlast |].
  apply Hzero.
  assert (E : parcela_valor = 57.62)
    by (vm_compute in Hp; inversion Hp; reflexivity).
  rewrite E; vm_compute; reflexivity.
Defined.

(** * Further properties of the module *)

(** ** The amortisation table *)

Lemma Forall2_In_r {X Y : Type} (R : X -> Y -> Prop) (l : list X)
  (ys : list Y) (y : Y) :
  Forall2 R l ys -> In y ys -> exists x, In x l /\ R x y.
Proof.
  induction 1 as [| x0 y0 l ys Hxy _ IH]; intros Hin.
  - contradiction.
  - destruct Hin as [-> | Hin].
    + exists x0; split; [left; reflexivity | exact Hxy].
    + destruct (IH Hin) as (x & Hx & Hxy'); exists x; split;
        [right; exact Hx | exact Hxy'].
Qed.

(** X1. No row of a returned table reports a negative balance: the
    balance is floored at zero before it is rounded, and rounding does not
    take a float below zero. *)
Theorem saldo_devedor_never_negative {L : Libm}
  (self : CalculadoraFinanceira) (valor_total taxa_mensal : float)
  (num_parcelas : Z) (tabela : list linha) (fila : linha) :
  tabela_amortizacao self valor_total taxa_mensal num_parcelas = Ok tabela ->
  In fila tabela ->
  (saldo_devedor fila <? 0) = false.
Proof.
  intros H Hin.
  apply tabela_amortizacao_Ok in H as (parcela_valor & _ & H).
  destruct (Forall2_In_r _ _ _ _ H Hin) as (i & _ & Hi).
  apply linha_de_Ok in Hi as (_ & _ & _ & _ & Hsd).
  exact (round_max0_not_negative _ _ _ Hsd).
Qed.

Lemma saldo_devedor_never_negative_witness :
  exists tabela,
    tabela_amortizacao (L := exact_libm) init_padrao 1000 0.1 3 = Ok tabela /\
    forall fila, In fila tabela -> (saldo_devedor fila <? 0) = false.
Proof.
  eexists; split; [vm_compute; reflexivity |].
  intros fila.
  apply (saldo_devedor_never_negative (L := exact_libm) init_padrao
           1000 0.1 3).
  vm_compute; reflexivity.
Defined.

(** X2. Every row of a returned table carries the same instalment. *)
Theorem valor_parcela_constant {L : Libm} (self : CalculadoraFinanceira)
  (valor_total taxa_mensal : float) (num_parcelas : Z)
  (tabela : list linha) (fila fila' : linha) :
  tabela_amortizacao self valor_total taxa_mensal num_parcelas = Ok tabela ->
  In fila tabela -> In fila' tabela ->
  valor_parcela fila = valor_parcela fila'.
Proof.
  intros H Hin Hin'.
  apply tabela_amortizacao_Ok in H as (parcela_valor & _ & H).
  destruct (Forall2_In_r _ _ _ _ H Hin) as (i & _ & Hi).
  destruct (Forall2_In_r _ _ _ _ H Hin') as (i' & _ & Hi').
  apply linha_de_Ok in Hi as (_ & Hvp & _).
  apply linha_de_Ok in Hi' as (_ & Hvp' & _).
  rewrite Hvp in Hvp'; inversion Hvp'; reflexivity.
Qed.

Lemma valor_parcela_constant_witness :
  exists tabela,
    tabela_amortizacao (L := exact_libm) init_padrao 1000 0.1 3 = Ok tabela /\
    forall fila fila',
      In fila tabela -> In fila' tabela ->
      valor_parcela fila = valor_parcela fila'.
Proof.
  eexists; split; [vm_compute; reflexivity |].
  intros fila fila'.
  apply (valor_parcela_constant (L := exact_libm) init_padrao 1000 0.1 3).
  vm_compute; reflexivity.
Defined.

(** X3. The table fails as the instalment does: an exception of
    [calcular_parcela] is the table's, before any row is built, and the only
    other failure of the table is an [OverflowError] of a rounding. *)
Theorem tabela_amortizacao_failures {L : Libm}
  (self : CalculadoraFinanceira) (valor_total taxa_mensal : float)
  (num_parcelas : Z) (e : exn) :
  (calcular_parcela self valor_total taxa_mensal num_parcelas = Raise e ->
   tabela_amortizacao self valor_total taxa_mensal num_parcelas = Raise e)
  /\ (tabela_amortizacao self valor_total taxa_mensal num_parcelas = Raise e ->
      calcular_parcela self valor_total taxa_mensal num_parcelas = Raise e
      \/ (returns (calcular_parcela self valor_total taxa_mensal num_parcelas)
          /\ e = OverflowError)).
Proof.
  split; unfold tabela_amortizacao; intros H.
  - rewrite H; reflexivity.
  - apply bind_Raise in H as [H | (v & Hv & H)]; [left; exact H |].
    right; split; [exists v; exact Hv |].
    apply bind_Raise in H as [H | (st & _ & H)]; [| discriminate].
    exact (laco_raises _ _ _ _ _ _ H).
Qed.

Lemma tabela_amortizacao_failures_witness :
  tabela_amortizacao (L := exact_libm) init_padrao 1000 1e-20 12
  = Raise ZeroDivisionError.
Proof.
  apply (proj1 (tabela_amortizacao_failures (L := exact_libm) init_padrao
                  1000 1e-20 12 ZeroDivisionError)).
  reflexivity.
Defined.

(** ** The validation *)



(** X5. A rate that is not a number passes the validation, since
    [nan <= 0] is false, and the instalment is not a number either. *)
Theorem calcular_parcela_nan_rate {L : Libm} (self : CalculadoraFinanceira)
  (valor_total : float) (num_parcelas : Z) :
  (0 < num_parcelas)%Z -> returns (Py.float_of_int num_parcelas) ->
  calcular_parcela self valor_total nan num_parcelas = Ok nan.
Proof.
  intros Hn [iw Hiw].
  rewrite calcular_parcela_valida by (reflexivity || assumption).
  change (1 + nan) with nan.
  unfold Py.pow; rewrite Hiw; cbn [bind].
  destruct (Z.eqb_spec num_parcelas 0) as [E | _]; [lia |].
  change (is_nan nan) with true; cbv iota; cbn [bind].
  change (Py.truediv (nan * nan) (nan - 1)) with (Ok nan); cbn [bind].
  rewrite mul_nan_r; reflexivity.
Qed.

Lemma calcular_parcela_nan_rate_witness :
  calcular_parcela (L := exact_libm) init_padrao 1000 nan 12 = Ok nan.
Proof.
  apply (calcular_parcela_nan_rate (L := exact_libm) init_padrao 1000 12).
  - reflexivity.
  - exists 12; reflexivity.
Defined.

(** ** Compound interest *)

(** X6. At rate zero the amount is the rounded principal, whatever the
    number of periods, negative ones too: [1.0 ** n] is [1.0]. *)
Theorem juros_compostos_zero_rate {L : Libm} (self : CalculadoraFinanceira)
  (principal : float) (periodos : Z) :
  returns (Py.float_of_int periodos) ->
  juros_compostos self principal 0 periodos
  = Py.round principal (precisao self).
Proof.
  intros Hret; unfold juros_compostos.
  change (1 + 0) with 1.
  rewrite (pow_one periodos Hret); cbn [bind].
  rewrite mul_one_r; reflexivity.
Qed.

Lemma juros_compostos_zero_rate_witness :
  juros_compostos (L := exact_libm) init_padrao 1000 0 (-7)
  = Py.round 1000 2.
Proof.
  apply (juros_compostos_zero_rate (L := exact_libm) init_padrao 1000 (-7)).
  exists (-7); reflexivity.
Defined.

(** X7. With zero or more periods [juros_compostos] never divides by
    zero: its only failure is an [OverflowError]. *)
Theorem juros_compostos_nonnegative_periods {L : Libm}
  (self : CalculadoraFinanceira) (principal taxa : float) (periodos : Z)
  (e : exn) :
  (0 <= periodos)%Z ->
  juros_compostos self principal taxa periodos = Raise e ->
  e = OverflowError.
Proof.
  intros Hn H.
  destruct (juros_compostos_raises self _ _ _ _ H) as [-> | ->];
    [| reflexivity].
  unfold juros_compostos in H.
  apply bind_Raise in H as [H | (w & _ & H)].
  - apply pow_ZeroDivisionError in H as (_ & Hneg & _); lia.
  - apply round_raises in H; discriminate.
Qed.

Lemma juros_compostos_nonnegative_periods_witness :
  juros_compostos (L := exact_libm) init_padrao 1000 1 1100
  = Raise OverflowError.
Proof.
  assert (H : exists e,
             juros_compostos (L := exact_libm) init_padrao 1000 1 1100
             = Raise e)
    by (eexists; vm_compute; reflexivity).
  destruct H as [e H]; rewrite H; f_equal.
  apply (juros_compostos_nonnegative_periods (L := exact_libm) init_padrao
           1000 1 1100 e); [discriminate | exact H].
Defined.

(** ** Return on investment *)

(** X8. An investment that returns what was put in has a return of zero:
    for every finite amount other than zero, [roi(x, x)] is a zero. *)
Theorem roi_no_gain (self : CalculadoraFinanceira) (x : float) :
  is_nan x = false -> is_infinity x = false -> (x =? 0) = false ->
  exists v, roi self x x = Ok v /\ (v =? 0) = true.
Proof.
  intros Hnan Hinf H0; unfold roi.
  rewrite truediv_Ok by exact H0; cbn [bind].
  rewrite (sub_diag x Hnan Hinf H0).
  destruct (zero_div x Hnan Hinf H0) as [-> | ->].
  - change (0 * 100) with 0; rewrite round_zero.
    exists 0; split; reflexivity.
  - change (-0 * 100) with (-0); rewrite round_neg_zero.
    exists (-0); split; reflexivity.
Qed.

Lemma roi_no_gain_witness :
  exists v, roi init_padrao 5000 5000 = Ok v /\ (v =? 0) = true.
Proof.
  apply (roi_no_gain init_padrao 5000); reflexivity.
Defined.

(** ** Accumulated inflation *)

(** X9. Months without inflation accumulate none: for a list of zeros,
    however long, the result is 0.0. *)
Theorem calcular_inflacao_acumulada_zeros (n : nat) :
  calcular_inflacao_acumulada (repeat 0 n) = Ok 0.
Proof.
  unfold calcular_inflacao_acumulada.
  rewrite acumular_fold; cbn [bind].
  assert (H : fold_left (fun acumulado taxa => acumulado * (1 + taxa / 100))
                (repeat 0 n) 1 = 1).
  { induction n as [| n IH]; [reflexivity |].
    cbn [repeat fold_left].
    change (1 * (1 + 0 / 100)) with 1; exact IH. }
  rewrite H; reflexivity.
Qed.

(** ** The floor of the balance *)


(** X10. When the unrounded balance after a period is not above zero, as
    after the last period of a schedule whose instalment was rounded up, the
    row reports exactly 0.0. *)
Theorem saldo_devedor_floor {L : Libm} (self : CalculadoraFinanceira)
  (valor_total taxa_mensal : float) (num_parcelas : Z)
  (tabela : list linha) (parcela_valor : float) (i : nat) (fila : linha) :
  tabela_amortizacao self valor_total taxa_mensal num_parcelas = Ok tabela ->
  calcular_parcela self valor_total taxa_mensal num_parcelas
    = Ok parcela_valor ->
  nth_error tabela i = Some fila ->
  (0 <? saldo_apos valor_total taxa_mensal parcela_valor (S i)) = false ->
  saldo_devedor fila = 0.
Proof.
  intros H Hp Hi Hsaldo.
  pose proof (tabela_amortizacao_nth _ _ _ _ _ _ _ _ H Hp Hi) as Hfila.
  apply linha_de_Ok in Hfila as (_ & _ & _ & _ & Hsd).
  unfold Py.max0 in Hsd; rewrite Hsaldo, round_zero in Hsd.
  inversion Hsd; reflexivity.
Qed.

Lemma saldo_devedor_floor_witness :
  exists tabela fila,
    tabela_amortizacao (L := exact_libm) init_padrao 100 0.1 2 = Ok tabela /\
    nth_error tabela 1 = Some fila /\
    (saldo_apos 100 0.1 57.62 2 <? 0) = true /\
    saldo_devedor fila = 0.
Proof.
  eexists; eexists.
  split; [vm_compute; reflexivity |].
  split; [vm_compute; reflexivity |].
  split; [vm_compute; reflexivity |].
  eapply (saldo_devedor_floor (L := exact_libm) init_padrao 100 0.1 2 _
            57.62 1);
    vm_compute; reflexivity.
Defined.
